(** * Rohlik.cz dashboard cards: a shallow embedding and its properties

    The repository ships two custom elements for the Home Assistant
    dashboard: [RohlikczShoppingListCard] and [RohlikczCartCard].  Each one
    keeps its state in fields of [this], renders it into its shadow root and
    talks to the backend through [hass.callService] (and, for product
    images, through [fetch]).

    The development follows the code:
    - [Js]       the JavaScript values the cards handle (strings as UTF-16
                 code units, objects as finite maps) and the operators the
                 code applies to them ([||], [??], [String], [trim],
                 [replace]);
    - [Async]    [async] methods as resumptions: a method runs until its
                 next [await], where it hands a request to the host and
                 waits for the outcome;
    - [ListCard] and [CartCard]   the two classes, method by method;
    - [Toast]    the toast element of the list card and the timers that
                 [setTimeout] arms;
    - [ListEvents], [CartEvents] and [Session]   what the dashboard and the
                 user can do to a card, and what happens to the page of the
                 list card over time;
    - [Contract] the answers of the backend that the cards can store and
                 render, and the ids that can be keys of the image cache;
    - the theorems. *)

From stdpp Require Import base list gmap strings pretty.
From Stdlib Require Import ZArith QArith Qround Ascii Lia.

#[local] Set Warnings "-register-all".
#[local] Open Scope N_scope.

(** ** JavaScript values *)

Module Js.

(** A string is its sequence of UTF-16 code units: [length], [trim] and
    [replace] count and compare code units. *)
Abbreviation JsString := (list N).

(** Literals are written in this file in UTF-8; [utf16] re-encodes the
    bytes of a literal as code units (astral code points become surrogate
    pairs). *)
Fixpoint utf16 (bs : list N) : JsString :=
  match bs with
  | [] => []
  | b :: r =>
    if b <? 0x80 then b :: utf16 r
    else match r with
    | [] => [b]
    | c1 :: r1 =>
      if b <? 0xE0 then ((b - 0xC0) * 64 + (c1 - 0x80)) :: utf16 r1
      else match r1 with
      | [] => [b; c1]
      | c2 :: r2 =>
        if b <? 0xF0
        then ((b - 0xE0) * 4096 + (c1 - 0x80) * 64 + (c2 - 0x80)) :: utf16 r2
        else match r2 with
        | [] => [b; c1; c2]
        | c3 :: r3 =>
          let cp := (b - 0xF0) * 262144 + (c1 - 0x80) * 4096
                    + (c2 - 0x80) * 64 + (c3 - 0x80) - 0x10000 in
          (0xD800 + cp / 1024) :: (0xDC00 + cp mod 1024) :: utf16 r3
        end
      end
    end
  end.

Definition bytes (s : string) : list N :=
  N_of_ascii <$> String.list_ascii_of_string s.

(** [lit "text"] is the JavaScript string literal ["text"]. *)
Definition lit (s : string) : JsString := utf16 (bytes s).

(** HTML templates are full of double quotes, which a literal of this file
    cannot hold: [html] reads an apostrophe as a double quote (no template
    of the cards contains an apostrophe). *)
Definition html (s : string) : JsString :=
  utf16 ((λ b, if b =? 39 then 34 else b) <$> bytes s).

#[global] Arguments lit : simpl never.
#[global] Arguments html : simpl never.

(** Numbers are IEEE doubles.  The cards never compute with a number that
    comes from the backend: they test it for truthiness and print it.  A
    number is therefore kept as what the code observes of it: its [String]
    image and whether it is truthy (neither [0] nor [NaN]). *)
Record Num := mkNum { num_text : JsString; num_truthy : bool }.

(** The number written [z] in the source, for an integer literal [z]. *)
Definition int (z : Z) : Num :=
  {| num_text := lit (pretty z); num_truthy := negb (Z.eqb z 0) |}.

(** Values: primitives, arrays and plain objects (the own properties, by
    key). *)
Inductive JsVal : Type :=
| JUndefined
| JNull
| JBool (b : bool)
| JNum (n : Num)
| JStr (s : JsString)
| JArr (elems : list JsVal)
| JObj (fields : gmap JsString JsVal).

Abbreviation Obj := (gmap JsString JsVal).

(** [ToBoolean]. *)
Definition truthy (v : JsVal) : bool :=
  match v with
  | JUndefined | JNull => false
  | JBool b => b
  | JNum n => num_truthy n
  | JStr s => negb (bool_decide (s = []))
  | JArr _ | JObj _ => true
  end.

Definition nullish (v : JsVal) : bool :=
  match v with JUndefined | JNull => true | _ => false end.

(** [a || b] and [a ?? b] (both operands of the cards are free of side
    effects, so the short cut is not visible). *)
Definition js_or (a b : JsVal) : JsVal := if truthy a then a else b.
Definition js_qq (a b : JsVal) : JsVal := if nullish a then b else a.

(** [join sep parts]: [Array.prototype.join] on strings. *)
Fixpoint join (sep : JsString) (parts : list JsString) : JsString :=
  match parts with
  | [] => []
  | [p] => p
  | p :: rest => p ++ sep ++ join sep rest
  end.

(** [String(v)], which is also what a template literal does to an
    interpolated value.  An array prints its elements separated by commas,
    [undefined] and [null] elements as nothing. *)
Fixpoint to_string (v : JsVal) : JsString :=
  match v with
  | JUndefined => lit "undefined"
  | JNull => lit "null"
  | JBool true => lit "true"
  | JBool false => lit "false"
  | JNum n => num_text n
  | JStr s => s
  | JArr elems =>
    join (lit ",")
      ((fix each (l : list JsVal) : list JsString :=
          match l with
          | [] => []
          | e :: l' => (if nullish e then [] else to_string e) :: each l'
          end) elems)
  | JObj _ => lit "[object Object]"
  end.

(** [o.key] for an object [o]: the own property, [undefined] when there is
    none. *)
Definition prop (key : string) (o : Obj) : JsVal :=
  default JUndefined (o !! lit key).

(** [v.key] for a value [v] that is not [undefined] or [null] (reading a
    property of those throws, see [prop_opt]).  None of the keys the cards
    read is a property of a primitive or of an array. *)
Definition vprop (key : string) (v : JsVal) : JsVal :=
  match v with JObj o => prop key o | _ => JUndefined end.

(** [v?.key]. *)
Definition prop_opt (key : string) (v : JsVal) : JsVal :=
  if nullish v then JUndefined else vprop key v.

(** [v?.[0]]. *)
Definition index0_opt (v : JsVal) : JsVal :=
  match v with
  | JArr (e :: _) => e
  | JStr (c :: _) => JStr [c]
  | JObj o => default JUndefined (o !! lit "0")
  | _ => JUndefined
  end.

(** [new Error(msg)], as far as the cards look at it: its [message]. *)
Definition Error (msg : JsString) : Obj := {[ lit "message" := JStr msg ]}.

(** The [TypeError] of reading property [key] of [undefined] (V8's
    wording). *)
Definition TypeError_undefined (key : string) : Obj :=
  Error (lit "Cannot read properties of undefined (reading '" ++ lit key ++ lit "')").

(** [WhiteSpace] and [LineTerminator] code units, which [trim] strips. *)
Definition is_space (c : N) : bool :=
  bool_decide (c ∈ [0x09; 0x0A; 0x0B; 0x0C; 0x0D; 0x20; 0xA0; 0x1680;
                    0x2028; 0x2029; 0x202F; 0x205F; 0x3000; 0xFEFF])
  || ((0x2000 <=? c) && (c <=? 0x200A)).

Fixpoint trim_start (s : JsString) : JsString :=
  match s with
  | c :: s' => if is_space c then trim_start s' else s
  | [] => []
  end.

Definition trim (s : JsString) : JsString :=
  reverse (trim_start (reverse (trim_start s))).

(** [s.replace(/c/g, r)] for a one-character pattern [c] and a replacement
    [r] without [$]. *)
Definition replace_all (c : N) (r : JsString) (s : JsString) : JsString :=
  s ≫= (λ x, if x =? c then r else [x]).

(** The objects of an array, in order.  The fields that hold a collection
    ([_items], [_products], [_searchResults]) are lists of objects here,
    which is what the backend sends.  The code does not check it: it
    stores whatever the answer holds, and fails later, where it maps over
    the value or reads a property of an element.  An answer whose
    collection is neither missing nor an array of objects is therefore
    outside of what the cards below describe: the properties of the
    handlers that depend on it take their answers from [Contract]. *)
Definition objects (v : JsVal) : list Obj :=
  match v with
  | JArr elems => omap (λ e, match e with JObj o => Some o | _ => None end) elems
  | _ => []
  end.

End Js.

(** ** Asynchronous methods *)

Module Async.
Import Js.

(** What a method can wait for: a service call through the host
    ([hass.callService(domain, service, data, undefined, true, true)]), an
    HTTP request ([fetch(url)]) and the body of a response
    ([resp.json()]). *)
Inductive Request : Type :=
| CallService (domain : JsVal) (service : JsString) (data : Obj)
| Fetch (url : JsString)
| ReadJson.

(** How the promise settles.  A rejection carries the thrown object: the
    host and [fetch] reject with an [Error]. *)
Inductive Outcome : Type :=
| Resolved (v : JsVal)
| Rejected (e : Obj).

(** What a method does that the outside can see. *)
Inductive Event : Type :=
| Render (markup : JsString)   (* shadowRoot.innerHTML = markup *)
| Call (rq : Request)          (* the request is handed to the host *)
| Settle (o : Outcome)         (* the host delivers the outcome *)
| Toast (msg : JsString) (isError : bool).   (* this._showToast(msg, isError) *)

Section Resumptions.
Context {S : Type}.

(** A method started on the card [s : S] runs until it returns, throws, or
    reaches an [await].  There it is suspended on one request; it is
    resumed with the outcome and with the card as it is by then (the
    fields of [this] are shared with every other handler). *)
Inductive Res (A : Type) : Type :=
| Done (a : A) (s : S) (out : list Event)
| Threw (e : Obj) (s : S) (out : list Event)
| Susp (rq : Request) (s : S) (out : list Event) (k : Outcome → S → Res A).
#[global] Arguments Done {A}.
#[global] Arguments Threw {A}.
#[global] Arguments Susp {A}.

Definition M (A : Type) : Type := S → Res A.

Definition emitted {A : Type} (out : list Event) (r : Res A) : Res A :=
  match r with
  | Done a s o => Done a s (out ++ o)
  | Threw e s o => Threw e s (out ++ o)
  | Susp rq s o k => Susp rq s (out ++ o) k
  end.

Fixpoint bindR {A B : Type} (r : Res A) (f : A → M B) : Res B :=
  match r with
  | Done a s out => emitted out (f a s)
  | Threw e s out => Threw e s out
  | Susp rq s out k => Susp rq s out (λ o s', bindR (k o s') f)
  end.

Definition ret {A : Type} (a : A) : M A := λ s, Done a s [].
Definition bind {A B : Type} (m : M A) (f : A → M B) : M B := λ s, bindR (m s) f.

(** Reading and writing fields of [this]. *)
Definition this : M S := λ s, Done s s [].
Definition assign (f : S → S) : M () := λ s, Done () (f s) [].

Definition throw {A : Type} (e : Obj) : M A := λ s, Threw e s [].
Definition emit (ev : Event) : M () := λ s, Done () s [ev].

(** [await] of a request. *)
Definition await (rq : Request) : M Outcome :=
  λ s, Susp rq s [] (λ o s', Done o s' []).

(** The result of running a method for a while. *)
Inductive Status (A : Type) : Type :=
| Returned (a : A)
| Thrown (e : Obj)
| Pending (rq : Request).
#[global] Arguments Returned {A}.
#[global] Arguments Thrown {A}.
#[global] Arguments Pending {A}.

(** [deliver r steps] runs the method: each time it is suspended, the next
    step says what the other handlers did to the card in the meantime and
    which outcome the host delivers.  The result is where the method
    stands when the steps are used up, the card, and the trace of the
    method's own events. *)
Fixpoint deliver {A : Type} (r : Res A) (steps : list ((S → S) * Outcome))
  : Status A * S * list Event :=
  match r with
  | Done a s out => (Returned a, s, out)
  | Threw e s out => (Thrown e, s, out)
  | Susp rq s out k =>
    match steps with
    | [] => (Pending rq, s, out ++ [Call rq])
    | (others, o) :: steps' =>
      let '(st, s', tr) := deliver (k o (others s)) steps' in
      (st, s', out ++ Call rq :: Settle o :: tr)
    end
  end.

(** No other handler runs while the method waits. *)
Definition alone (outcomes : list Outcome) : list ((S → S) * Outcome) :=
  (λ o, (id, o)) <$> outcomes.

End Resumptions.
#[global] Arguments Res : clear implicits.
#[global] Arguments M : clear implicits.

#[global] Instance M_ret {S} : MRet (M S) := λ A, ret.
#[global] Instance M_bind {S} : MBind (M S) := λ A B f m, bind m f.

(** The requests of a trace. *)
Definition calls (tr : list Event) : list Request :=
  omap (λ ev, match ev with Call rq => Some rq | _ => None end) tr.

Definition renders (tr : list Event) : list JsString :=
  omap (λ ev, match ev with Render h => Some h | _ => None end) tr.

Definition is_service (name : string) (rq : Request) : bool :=
  match rq with
  | CallService _ service _ => bool_decide (service = lit name)
  | _ => false
  end.

(** Two properties of a resumption that hold of every run, whatever the
    host answers. *)
Section EveryRun.
Context {S : Type}.

(** [Never P r]: [r] hands the host no request that satisfies [P]. *)
Inductive Never (P : Request → bool) {A : Type} : Res S A → Prop :=
| Never_done a s out : calls out = [] → Never P (Done a s out)
| Never_threw e s out : calls out = [] → Never P (Threw e s out)
| Never_susp rq s out k :
    calls out = [] → P rq = false → (∀ o s', Never P (k o s')) →
    Never P (Susp rq s out k).

(** [Keeps rely waiting finished r]: provided the other handlers respect
    [rely] while [r] is suspended, [r] never throws, the card satisfies
    [waiting] each time [r] is suspended, and [finished] when [r]
    returns. *)
Inductive Keeps (rely : S → S → Prop) (waiting finished : S → Prop) {A : Type}
  : Res S A → Prop :=
| Keeps_done a s out : finished s → Keeps rely waiting finished (Done a s out)
| Keeps_susp rq s out k :
    waiting s →
    (∀ o s', rely s s' → Keeps rely waiting finished (k o s')) →
    Keeps rely waiting finished (Susp rq s out k).

End EveryRun.

End Async.

(** ** The shopping-list card: [class RohlikczShoppingListCard] *)

Module ListCard.
Import Js Async.

(** An entry of the result log of [_addAllToCart]:
    [{ name, ok: true }] or [{ name, ok: false, error }]. *)
Record AddResult := mkAddResult {
  name : JsVal;
  ok : bool;
  error : option JsVal;
}.

(** The fields of [this].  [_config] and [_loaded] are [undefined] until
    they are first assigned; [_hass] records whether the host has handed
    in its [hass] object.  The elements of [_items] are the product
    objects of the backend. *)
Record Card := mkCard {
  _config : option Obj;
  _domain : JsVal;
  _hass : bool;
  _loaded : bool;
  _items : list Obj;
  _listName : JsVal;
  _loading : bool;
  _error : JsVal;
  _addingAll : bool;
  _addResults : list AddResult;
}.

(** [constructor()]. *)
Definition constructor : Card :=
  {| _config := None; _domain := JUndefined; _hass := false; _loaded := false;
     _items := []; _listName := JStr []; _loading := false; _error := JNull;
     _addingAll := false; _addResults := [] |}.

(** Assignments [this.field = v]. *)
Definition set_config v (c : Card) : Card :=
  mkCard v (_domain c) (_hass c) (_loaded c) (_items c) (_listName c)
         (_loading c) (_error c) (_addingAll c) (_addResults c).
Definition set_domain v (c : Card) : Card :=
  mkCard (_config c) v (_hass c) (_loaded c) (_items c) (_listName c)
         (_loading c) (_error c) (_addingAll c) (_addResults c).
Definition set_hass v (c : Card) : Card :=
  mkCard (_config c) (_domain c) v (_loaded c) (_items c) (_listName c)
         (_loading c) (_error c) (_addingAll c) (_addResults c).
Definition set_loaded v (c : Card) : Card :=
  mkCard (_config c) (_domain c) (_hass c) v (_items c) (_listName c)
         (_loading c) (_error c) (_addingAll c) (_addResults c).
Definition set_items v (c : Card) : Card :=
  mkCard (_config c) (_domain c) (_hass c) (_loaded c) v (_listName c)
         (_loading c) (_error c) (_addingAll c) (_addResults c).
Definition set_listName v (c : Card) : Card :=
  mkCard (_config c) (_domain c) (_hass c) (_loaded c) (_items c) v
         (_loading c) (_error c) (_addingAll c) (_addResults c).
Definition set_loading v (c : Card) : Card :=
  mkCard (_config c) (_domain c) (_hass c) (_loaded c) (_items c) (_listName c)
         v (_error c) (_addingAll c) (_addResults c).
Definition set_error v (c : Card) : Card :=
  mkCard (_config c) (_domain c) (_hass c) (_loaded c) (_items c) (_listName c)
         (_loading c) v (_addingAll c) (_addResults c).
Definition set_addingAll v (c : Card) : Card :=
  mkCard (_config c) (_domain c) (_hass c) (_loaded c) (_items c) (_listName c)
         (_loading c) (_error c) v (_addResults c).
Definition set_addResults v (c : Card) : Card :=
  mkCard (_config c) (_domain c) (_hass c) (_loaded c) (_items c) (_listName c)
         (_loading c) (_error c) (_addingAll c) v.


(** The static style sheet that opens the template of [_render]. *)
Definition style_sheet : JsString :=
  lit "
      <style>
        :host {
          display: block;
          font-family: var(--paper-font-body1_-_font-family, sans-serif);
        }
        ha-card {
          padding: 0;
          overflow: hidden;
        }
        .header {
          display: flex;
          align-items: center;
          justify-content: space-between;
          padding: 16px 16px 8px;
          border-bottom: 1px solid var(--divider-color, rgba(0,0,0,0.12));
        }
        .header-left {
          display: flex;
          align-items: center;
          gap: 10px;
        }
        .header-icon {
          color: var(--primary-color, #03a9f4);
          font-size: 22px;
        }
        .title {
          font-size: 1.1rem;
          font-weight: 500;
          color: var(--primary-text-color);
        }
        .subtitle {
          font-size: 0.8rem;
          color: var(--secondary-text-color);
          margin-top: 2px;
        }
        .actions {
          display: flex;
          gap: 8px;
        }
        .btn {
          display: inline-flex;
          align-items: center;
          gap: 6px;
          padding: 6px 14px;
          border: none;
          border-radius: 20px;
          cursor: pointer;
          font-size: 0.82rem;
          font-weight: 500;
          transition: opacity 0.15s, background 0.15s;
        }
        .btn:disabled {
          opacity: 0.5;
          cursor: default;
        }
        .btn-primary {
          background: var(--primary-color, #03a9f4);
          color: #fff;
        }
        .btn-secondary {
          background: var(--secondary-background-color, #f5f5f5);
          color: var(--primary-text-color);
          border: 1px solid var(--divider-color, rgba(0,0,0,0.12));
        }
        .item-list {
          list-style: none;
          margin: 0;
          padding: 0;
        }
        .item {
          display: flex;
          align-items: center;
          padding: 10px 16px;
          border-bottom: 1px solid var(--divider-color, rgba(0,0,0,0.07));
          gap: 12px;
          transition: background 0.1s;
        }
        .item:last-child {
          border-bottom: none;
        }
        .item:hover {
          background: var(--secondary-background-color, rgba(0,0,0,0.03));
        }
        .item-icon {
          font-size: 20px;
          flex-shrink: 0;
          color: var(--secondary-text-color);
        }
        .item-info {
          flex: 1;
          min-width: 0;
        }
        .item-name {
          font-size: 0.9rem;
          font-weight: 500;
          color: var(--primary-text-color);
          white-space: nowrap;
          overflow: hidden;
          text-overflow: ellipsis;
        }
        .item-meta {
          font-size: 0.78rem;
          color: var(--secondary-text-color);
          margin-top: 2px;
          display: flex;
          gap: 8px;
          flex-wrap: wrap;
        }
        .item-price {
          font-size: 0.85rem;
          font-weight: 500;
          color: var(--primary-color, #03a9f4);
          flex-shrink: 0;
          white-space: nowrap;
        }
        .add-btn {
          background: none;
          border: 1px solid var(--primary-color, #03a9f4);
          color: var(--primary-color, #03a9f4);
          border-radius: 50%;
          width: 30px;
          height: 30px;
          display: flex;
          align-items: center;
          justify-content: center;
          cursor: pointer;
          font-size: 18px;
          flex-shrink: 0;
          transition: background 0.15s, color 0.15s;
          padding: 0;
        }
        .add-btn:hover {
          background: var(--primary-color, #03a9f4);
          color: #fff;
        }
        .state-box {
          display: flex;
          flex-direction: column;
          align-items: center;
          justify-content: center;
          padding: 32px 16px;
          gap: 12px;
          color: var(--secondary-text-color);
          font-size: 0.9rem;
        }
        .spinner {
          width: 28px;
          height: 28px;
          border: 3px solid var(--divider-color, rgba(0,0,0,0.12));
          border-top-color: var(--primary-color, #03a9f4);
          border-radius: 50%;
          animation: spin 0.8s linear infinite;
        }
        @keyframes spin { to { transform: rotate(360deg); } }
        .error-icon { font-size: 28px; }
        .results-bar {
          padding: 8px 16px;
          font-size: 0.8rem;
          background: var(--secondary-background-color, #f5f5f5);
          border-top: 1px solid var(--divider-color, rgba(0,0,0,0.12));
          display: flex;
          flex-wrap: wrap;
          gap: 6px;
        }
        .result-chip {
          padding: 2px 8px;
          border-radius: 12px;
          font-size: 0.75rem;
        }
        .result-ok { background: #e8f5e9; color: #2e7d32; }
        .result-fail { background: #ffebee; color: #c62828; }
        .toast {
          position: fixed;
          bottom: 24px;
          left: 50%;
          transform: translateX(-50%) translateY(8px);
          background: var(--success-color, #2e7d32);
          color: #fff;
          padding: 8px 20px;
          border-radius: 20px;
          font-size: 0.85rem;
          opacity: 0;
          transition: opacity 0.3s, transform 0.3s;
          z-index: 9999;
          pointer-events: none;
          white-space: nowrap;
        }
        .empty-icon { font-size: 28px; }
      </style>".

(** [_escHtml(str)]. *)
Definition _escHtml (str : JsVal) : JsString :=
  replace_all 34 (lit "&quot;")
    (replace_all 62 (lit "&gt;")
      (replace_all 60 (lit "&lt;")
        (replace_all 38 (lit "&amp;") (to_string str)))).

(** The constants that the callback of [this._items.map] computes for a
    product in [_renderBody]. *)
Definition row_name (product : Obj) : JsVal :=
  js_qq (js_qq (prop "productName" product) (prop "name" product))
    (JStr (lit "Product " ++
           to_string (js_qq (prop "productId" product) (prop "id" product)))).

Definition row_brand (product : Obj) : JsVal :=
  js_qq (prop "brand" product) (JStr []).

Definition row_amount (product : Obj) : JsVal :=
  js_qq (js_qq (prop "textualAmount" product) (prop "amount" product)) (JStr []).

Definition row_price (product : Obj) : JsVal :=
  if truthy (prop "price" product)
  then match prop "price" product with
       | (JObj _ | JArr _) as p =>   (* typeof p === "object" *)
         JStr (trim (to_string (js_qq (vprop "full" p) (JStr []))
                     ++ lit " "
                     ++ to_string (js_qq (vprop "currency" p) (JStr []))))
       | p => p
       end
  else JStr [].

(** One [<li>] of [_renderBody]: what the callback returns. *)
Definition item_row (product : Obj) (idx : nat) : JsString :=
  let name := row_name product in
  let brand := row_brand product in
  let amount := row_amount product in
  let price := row_price product in
  html "
        <li class='item'>
          <span class='item-icon'>🥦</span>
          <div class='item-info'>
            <div class='item-name'>"
  ++ _escHtml name ++
  html "</div>
            <div class='item-meta'>
              "
  ++ (if truthy brand
      then html "<span>" ++ _escHtml brand ++ html "</span>" else [])
  ++ lit "
              "
  ++ (if truthy amount
      then html "<span>" ++ _escHtml amount ++ html "</span>" else [])
  ++ lit "
            </div>
          </div>
          "
  ++ (if truthy price
      then html "<span class='item-price'>" ++ _escHtml (JStr (to_string price))
           ++ html "</span>"
      else [])
  ++ html "
          <button class='add-btn' data-idx='"
  ++ lit (pretty idx) ++
  html "' title='Add to cart'>+</button>
        </li>
      ".

(** [_renderBody()]. *)
Definition _renderBody (c : Card) : JsString :=
  if _loading c then
    html "<div class='state-box'><div class='spinner'></div><span>Loading shopping list…</span></div>"
  else if truthy (_error c) then
    html "<div class='state-box'><span class='error-icon'>⚠️</span><span>"
    ++ _escHtml (_error c) ++ html "</span></div>"
  else if bool_decide (length (_items c) = 0%nat) then
    html "<div class='state-box'><span class='empty-icon'>📋</span><span>No items in this shopping list</span></div>"
  else
    let rows := imap (λ idx product, item_row product idx) (_items c) in
    html "<ul class='item-list'>" ++ join [] rows ++ html "</ul>".

(** One chip of the results bar: the callback of [this._addResults.map]. *)
Definition result_chip (r : AddResult) : JsString :=
  html "<span class='result-chip " ++
  (if ok r then lit "result-ok" else lit "result-fail") ++ html "'>"
  ++ _escHtml (name r) ++ lit ": "
  ++ (if ok r then lit "✓ added" else lit "✗ failed") ++ html "</span>".

(** [_render()]: the markup assigned to [this.shadowRoot.innerHTML].  (The
    listeners it then attaches are the handlers below.) *)
Definition _render (c : Card) : JsString :=
  let config := default ∅ (_config c) in
  let title :=
    js_or (js_or (prop "title" config) (_listName c)) (JStr (lit "Shopping List")) in
  let n := length (_items c) in
  style_sheet ++
  html "

      <ha-card>
        <div class='header'>
          <div class='header-left'>
            <span class='header-icon'>🛒</span>
            <div>
              <div class='title'>"
  ++ _escHtml title ++
  lit "</div>
              "
  ++ (if bool_decide (0 < n)%nat
      then html "<div class='subtitle'>" ++ lit (pretty n) ++ lit " item"
           ++ (if bool_decide (n ≠ 1%nat) then lit "s" else []) ++ html "</div>"
      else [])
  ++ html "
            </div>
          </div>
          <div class='actions'>
            <button class='btn btn-secondary' id='refresh-btn' title='Refresh'>↻ Refresh</button>
            "
  ++ (if bool_decide (0 < n)%nat
      then html "<button class='btn btn-primary' id='add-all-btn' "
           ++ (if _addingAll c then lit "disabled" else []) ++ html ">"
           ++ (if _addingAll c then lit "Adding…" else lit "Add all to cart")
           ++ html "</button>"
      else [])
  ++ lit "
          </div>
        </div>

        "
  ++ _renderBody c ++
  lit "

        "
  ++ (if bool_decide (0 < length (_addResults c))%nat
      then html "
          <div class='results-bar'>
            "
           ++ join [] (result_chip <$> _addResults c) ++
           lit "
          </div>
        "
      else [])
  ++ html "
      </ha-card>

      <div class='toast'></div>
    ".
(** [this._render()]. *)
Definition render : M Card () :=
  c ← this; emit (Render (_render c)).

(** [setConfig(config)]. *)
Definition setConfig (config : Obj) : M Card () :=
  if negb (truthy (prop "config_entry_id" config)) then
    throw (Error (lit "config_entry_id is required"))
  else if negb (truthy (prop "shopping_list_id" config)) then
    throw (Error (lit "shopping_list_id is required"))
  else
    assign (set_config (Some config));;
    assign (set_domain (js_or (prop "domain" config) (JStr (lit "rohlikcz2"))));;
    render.

(** [await this._hass.callService(this._domain, service, data, undefined,
    true, true)] inside a [try], where [data] reads [this._config].  When
    [this._hass] or [this._config] is still [undefined], evaluating the
    call throws a [TypeError] before any request goes out; the [catch]
    that handles a rejection receives it. *)
Definition callService (service : string) (data : Obj → Obj) : M Card Outcome :=
  c ← this;
  if negb (_hass c) then mret (Rejected (TypeError_undefined "callService"))
  else match _config c with
       | None => mret (Rejected (TypeError_undefined "config_entry_id"))
       | Some config => await (CallService (_domain c) (lit service) (data config))
       end.

(** [async _fetchList()]. *)
Definition _fetchList : M Card () :=
  assign (set_loading true);;
  assign (set_error JNull);;
  assign (set_addResults []);;
  render;;
  o ← callService "get_shopping_list" (λ config,
         {[ lit "config_entry_id" := prop "config_entry_id" config;
            lit "shopping_list_id" := prop "shopping_list_id" config ]});
  match o with
  | Resolved result =>
    if nullish result then
      (* [result.response] throws, the [catch] stores the message *)
      assign (set_error
        (JStr (lit "Cannot read properties of " ++ to_string result
               ++ lit " (reading 'response')")))
    else
      assign (set_listName
        (js_or (prop_opt "name" (vprop "response" result)) (JStr [])));;
      assign (set_items
        (objects (js_or (prop_opt "products_in_list" (vprop "response" result))
                        (JArr []))))
  | Rejected e =>
    assign (set_error
      (js_or (prop "message" e) (JStr (lit "Failed to load shopping list"))))
  end;;
  assign (set_loading false);;
  render.

(** [set hass(hass)]. *)
Definition hass_setter : M Card () :=
  assign (set_hass true);;
  c ← this;
  if negb (_loaded c) then assign (set_loaded true);; _fetchList else mret ().

(** The body of the loop of [_addAllToCart], over the products still to
    add: one awaited call each, and a push onto [results] either way. *)
Fixpoint add_each (products : list Obj) (results : list AddResult)
  : M Card (list AddResult) :=
  match products with
  | [] => mret results
  | product :: rest =>
    o ← callService "add_to_cart" (λ config,
           {[ lit "config_entry_id" := prop "config_entry_id" config;
              lit "product_id" := js_qq (prop "productId" product) (prop "id" product);
              lit "quantity" := JNum (int 1) ]});
    let name := js_qq (prop "productName" product) (prop "name" product) in
    add_each rest
      (results ++ [match o with
                   | Resolved _ => mkAddResult name true None
                   | Rejected e => mkAddResult name false (Some (prop "message" e))
                   end])
  end.

(** [async _addAllToCart()]. *)
Definition _addAllToCart : M Card () :=
  assign (set_addingAll true);;
  assign (set_addResults []);;
  render;;
  c ← this;
  results ← add_each (_items c) [];
  assign (set_addResults results);;
  assign (set_addingAll false);;
  render.

(** [async _addItemToCart(product)]. *)
Definition _addItemToCart (product : Obj) : M Card () :=
  let name :=
    js_qq (js_qq (js_qq (prop "productName" product) (prop "name" product))
                 (prop "productId" product))
          (prop "id" product) in
  o ← callService "add_to_cart" (λ config,
         {[ lit "config_entry_id" := prop "config_entry_id" config;
            lit "product_id" := js_qq (prop "productId" product) (prop "id" product);
            lit "quantity" := JNum (int 1) ]});
  match o with
  | Resolved _ =>
    emit (Toast (lit "✓ " ++ to_string name ++ lit " added to cart") false)
  | Rejected e =>
    emit (Toast (lit "✗ Failed: " ++ to_string (prop "message" e)) true)
  end.

(** The listeners that [_render] attaches. *)
Definition refresh_click : M Card () :=
  assign (set_loaded false);; _fetchList.

Definition add_all_click : M Card () := _addAllToCart.

Definition add_click (idx : nat) : M Card () :=
  c ← this;
  match _items c !! idx with
  | Some product => _addItemToCart product
  | None => throw (TypeError_undefined "productName")
  end.

(** [getCardSize()]: [Math.max(1, Math.ceil(this._items.length / 2) + 2)].
    A length is an integer below 2^32, on which the division and
    [Math.ceil] of doubles are exact; they are computed in the
    rationals. *)
Definition getCardSize (c : Card) : Z :=
  Z.max 1 (Qceiling (inject_Z (Z.of_nat (length (_items c))) / 2) + 2).

(** [static getStubConfig()]. *)
Definition getStubConfig : Obj :=
  {[ lit "config_entry_id" := JStr [];
     lit "shopping_list_id" := JStr [];
     lit "title" := JStr (lit "Rohlik Shopping List") ]}.

End ListCard.

(** ** The toast of the shopping-list card *)

Module Toast.
Import Js Async.

(** The [<div class="toast">] element, as far as [_showToast] and its timer
    touch it: the text and three inline style properties.  The style sheet
    gives the class [opacity: 0]; an inline [opacity] takes precedence. *)
Record ToastEl := mkToastEl {
  textContent : JsString;
  background : JsString;
  opacity : JsString;
  transform : JsString;
}.

(** The element as the parser creates it. *)
Definition created : ToastEl := mkToastEl [] [] [] [].

(** A timer armed by [setTimeout]: the time at which it is due, in
    milliseconds, and the element that its callback holds. *)
Record Timer := mkTimer {
  due : nat;
  target : nat;
}.

(** The page: the clock, every toast element created so far (an element
    is known by its index), the one that is in the shadow root now (what
    [querySelector(".toast")] finds), and the pending timers. *)
Record Page := mkPage {
  now : nat;
  elements : list ToastEl;
  mounted : option nat;
  timers : list Timer;
}.

Definition initial : Page := mkPage 0 [] None [].

(** What [_render()] does to the toast: the assignment to [innerHTML]
    replaces the subtree, so the shadow root gets a new toast element.  The
    former one is detached; a pending timer still holds it. *)
Definition rendered (p : Page) : Page :=
  mkPage (now p) (elements p ++ [created]) (Some (length (elements p))) (timers p).

(** [_showToast(msg, isError = false)]. *)
Definition _showToast (msg : JsString) (isError : bool) (p : Page) : Page :=
  match mounted p with
  | None => p                                      (* if (!toast) return; *)
  | Some toast =>
    mkPage (now p)
      (alter (λ _, mkToastEl msg
                     (if isError then lit "var(--error-color, #c62828)"
                      else lit "var(--success-color, #2e7d32)")
                     (lit "1")
                     (lit "translateY(0)"))
             toast (elements p))
      (mounted p)
      (timers p ++ [mkTimer (now p + 2500) toast])
  end.

(** The callback handed to [setTimeout]. *)
Definition hide (el : ToastEl) : ToastEl :=
  mkToastEl (textContent el) (background el) (lit "0") (lit "translateY(8px)").

(** The timers [tms] fire, in the order in which they were armed. *)
Definition fire (els : list ToastEl) (tms : list Timer) : list ToastEl :=
  foldl (λ els tm, alter hide (target tm) els) els tms.

(** [d] milliseconds go by without any other event: the timers that are
    due by then fire, the others stay pending. *)
Definition advance (d : nat) (p : Page) : Page :=
  let t := (now p + d)%nat in
  mkPage t
    (fire (elements p) (filter (λ tm, (due tm ≤ t)%nat) (timers p)))
    (mounted p)
    (filter (λ tm, ¬ (due tm ≤ t)%nat) (timers p)).

(** The toast in the shadow root is showing. *)
Definition visible (p : Page) : bool :=
  match mounted p with
  | Some toast =>
    match elements p !! toast with
    | Some el => bool_decide (opacity el = lit "1")
    | None => false
    end
  | None => false
  end.

(** The text of the toast in the shadow root. *)
Definition text (p : Page) : JsString :=
  match mounted p with
  | Some toast => default [] (textContent <$> elements p !! toast)
  | None => []
  end.

(** The effect of a card's event on the page. *)
Definition on_event (ev : Event) (p : Page) : Page :=
  match ev with
  | Render _ => rendered p
  | Toast msg isError => _showToast msg isError p
  | _ => p
  end.

End Toast.

(** ** The cart card: [class RohlikczCartCard] *)

Module CartCard.
Import Js Async.

(** An entry of [this._imageCache]: [{ image, textualAmount }]. *)
Record ImageCacheEntry := mkEntry {
  image : JsVal;
  textualAmount : JsVal;
}.

(** The fields of [this].  [_imageCache] and [_addingToCart] are objects
    used as dictionaries; a key is the [String] image of a product id.
    Product ids are numbers, so no key names a member of
    [Object.prototype], and looking a key up in the finite map is what
    [this._imageCache[id]] does. *)
Record Card := mkCard {
  _config : option Obj;
  _domain : JsVal;
  _hass : bool;
  _loaded : bool;
  _products : list Obj;
  _totalPrice : JsVal;
  _totalItems : JsVal;
  _loading : bool;
  _error : JsVal;
  _imageCache : gmap JsString ImageCacheEntry;
  _searchQuery : JsString;
  _searchResults : list Obj;
  _searching : bool;
  _searchError : JsVal;
  _addingToCart : gmap JsString bool;
}.

(** [constructor()]. *)
Definition constructor : Card :=
  {| _config := None; _domain := JUndefined; _hass := false; _loaded := false;
     _products := []; _totalPrice := JNum (int 0); _totalItems := JNum (int 0);
     _loading := false; _error := JNull; _imageCache := ∅;
     _searchQuery := []; _searchResults := []; _searching := false;
     _searchError := JNull; _addingToCart := ∅ |}.

(** Assignments [this.field = v]. *)
Definition set_config v (c : Card) : Card :=
  mkCard v (_domain c) (_hass c) (_loaded c) (_products c) (_totalPrice c)
         (_totalItems c) (_loading c) (_error c) (_imageCache c)
         (_searchQuery c) (_searchResults c) (_searching c) (_searchError
         c) (_addingToCart c).
Definition set_domain v (c : Card) : Card :=
  mkCard (_config c) v (_hass c) (_loaded c) (_products c) (_totalPrice c)
         (_totalItems c) (_loading c) (_error c) (_imageCache c)
         (_searchQuery c) (_searchResults c) (_searching c) (_searchError
         c) (_addingToCart c).
Definition set_hass v (c : Card) : Card :=
  mkCard (_config c) (_domain c) v (_loaded c) (_products c) (_totalPrice c)
         (_totalItems c) (_loading c) (_error c) (_imageCache c)
         (_searchQuery c) (_searchResults c) (_searching c) (_searchError
         c) (_addingToCart c).
Definition set_loaded v (c : Card) : Card :=
  mkCard (_config c) (_domain c) (_hass c) v (_products c) (_totalPrice c)
         (_totalItems c) (_loading c) (_error c) (_imageCache c)
         (_searchQuery c) (_searchResults c) (_searching c) (_searchError
         c) (_addingToCart c).
Definition set_products v (c : Card) : Card :=
  mkCard (_config c) (_domain c) (_hass c) (_loaded c) v (_totalPrice c)
         (_totalItems c) (_loading c) (_error c) (_imageCache c)
         (_searchQuery c) (_searchResults c) (_searching c) (_searchError
         c) (_addingToCart c).
Definition set_totalPrice v (c : Card) : Card :=
  mkCard (_config c) (_domain c) (_hass c) (_loaded c) (_products c) v
         (_totalItems c) (_loading c) (_error c) (_imageCache c)
         (_searchQuery c) (_searchResults c) (_searching c) (_searchError
         c) (_addingToCart c).
Definition set_totalItems v (c : Card) : Card :=
  mkCard (_config c) (_domain c) (_hass c) (_loaded c) (_products c)
         (_totalPrice c) v (_loading c) (_error c) (_imageCache c)
         (_searchQuery c) (_searchResults c) (_searching c) (_searchError
         c) (_addingToCart c).
Definition set_loading v (c : Card) : Card :=
  mkCard (_config c) (_domain c) (_hass c) (_loaded c) (_products c)
         (_totalPrice c) (_totalItems c) v (_error c) (_imageCache c)
         (_searchQuery c) (_searchResults c) (_searching c) (_searchError
         c) (_addingToCart c).
Definition set_error v (c : Card) : Card :=
  mkCard (_config c) (_domain c) (_hass c) (_loaded c) (_products c)
         (_totalPrice c) (_totalItems c) (_loading c) v (_imageCache c)
         (_searchQuery c) (_searchResults c) (_searching c) (_searchError
         c) (_addingToCart c).
Definition set_imageCache v (c : Card) : Card :=
  mkCard (_config c) (_domain c) (_hass c) (_loaded c) (_products c)
         (_totalPrice c) (_totalItems c) (_loading c) (_error c) v
         (_searchQuery c) (_searchResults c) (_searching c) (_searchError
         c) (_addingToCart c).
Definition set_searchQuery v (c : Card) : Card :=
  mkCard (_config c) (_domain c) (_hass c) (_loaded c) (_products c)
         (_totalPrice c) (_totalItems c) (_loading c) (_error c)
         (_imageCache c) v (_searchResults c) (_searching c) (_searchError
         c) (_addingToCart c).
Definition set_searchResults v (c : Card) : Card :=
  mkCard (_config c) (_domain c) (_hass c) (_loaded c) (_products c)
         (_totalPrice c) (_totalItems c) (_loading c) (_error c)
         (_imageCache c) (_searchQuery c) v (_searching c) (_searchError
         c) (_addingToCart c).
Definition set_searching v (c : Card) : Card :=
  mkCard (_config c) (_domain c) (_hass c) (_loaded c) (_products c)
         (_totalPrice c) (_totalItems c) (_loading c) (_error c)
         (_imageCache c) (_searchQuery c) (_searchResults c) v
         (_searchError c) (_addingToCart c).
Definition set_searchError v (c : Card) : Card :=
  mkCard (_config c) (_domain c) (_hass c) (_loaded c) (_products c)
         (_totalPrice c) (_totalItems c) (_loading c) (_error c)
         (_imageCache c) (_searchQuery c) (_searchResults c) (_searching
         c) v (_addingToCart c).
Definition set_addingToCart v (c : Card) : Card :=
  mkCard (_config c) (_domain c) (_hass c) (_loaded c) (_products c)
         (_totalPrice c) (_totalItems c) (_loading c) (_error c)
         (_imageCache c) (_searchQuery c) (_searchResults c) (_searching
         c) (_searchError c) v.

(** The constant [style] of [_render]: the static style sheet. *)
Definition style : JsString :=
  lit "
      <style>
        :host { display: block; }
        .card {
          background: var(--card-background-color, #1c1c1c);
          border-radius: 12px;
          padding: 16px;
          font-family: var(--primary-font-family, sans-serif);
          color: var(--primary-text-color, #fff);
        }
        .header {
          display: flex;
          align-items: center;
          justify-content: space-between;
          margin-bottom: 12px;
        }
        .header-left {
          display: flex;
          align-items: center;
          gap: 10px;
        }
        .title {
          font-size: 1.1em;
          font-weight: 600;
        }
        .subtitle {
          font-size: 0.8em;
          color: var(--secondary-text-color, #aaa);
        }
        .refresh-btn {
          background: none;
          border: 1px solid var(--divider-color, #444);
          color: var(--primary-text-color, #fff);
          border-radius: 6px;
          padding: 4px 10px;
          cursor: pointer;
          font-size: 0.8em;
          display: flex;
          align-items: center;
          gap: 4px;
        }
        .refresh-btn:hover { background: var(--secondary-background-color, #2a2a2a); }
        .loading, .error, .empty {
          text-align: center;
          padding: 24px;
          color: var(--secondary-text-color, #aaa);
          font-size: 0.9em;
        }
        .error { color: var(--error-color, #f44336); }
        .item {
          display: flex;
          align-items: center;
          gap: 12px;
          padding: 10px 0;
          border-bottom: 1px solid var(--divider-color, #333);
        }
        .item:last-child { border-bottom: none; }
        .item-img {
          width: 52px;
          height: 52px;
          object-fit: contain;
          border-radius: 6px;
          background: #2a2a2a;
          flex-shrink: 0;
        }
        .item-img-placeholder {
          width: 52px;
          height: 52px;
          border-radius: 6px;
          background: var(--secondary-background-color, #2a2a2a);
          display: flex;
          align-items: center;
          justify-content: center;
          flex-shrink: 0;
          font-size: 1.4em;
        }
        .item-info {
          flex: 1;
          min-width: 0;
        }
        .item-name {
          font-size: 0.9em;
          font-weight: 500;
          white-space: nowrap;
          overflow: hidden;
          text-overflow: ellipsis;
        }
        .item-meta {
          font-size: 0.75em;
          color: var(--secondary-text-color, #aaa);
          margin-top: 2px;
        }
        .item-right {
          display: flex;
          flex-direction: column;
          align-items: flex-end;
          gap: 6px;
          flex-shrink: 0;
        }
        .item-price {
          font-size: 0.95em;
          font-weight: 600;
          color: var(--primary-color, #03a9f4);
        }
        .item-qty {
          font-size: 0.8em;
          color: var(--secondary-text-color, #aaa);
        }
        .remove-btn {
          background: none;
          border: 1px solid var(--divider-color, #444);
          color: var(--secondary-text-color, #aaa);
          border-radius: 50%;
          width: 24px;
          height: 24px;
          cursor: pointer;
          font-size: 0.9em;
          display: flex;
          align-items: center;
          justify-content: center;
          line-height: 1;
        }
        .remove-btn:hover { border-color: var(--error-color, #f44336); color: var(--error-color, #f44336); }
        .footer {
          display: flex;
          justify-content: space-between;
          align-items: center;
          margin-top: 14px;
          padding-top: 12px;
          border-top: 1px solid var(--divider-color, #333);
          font-size: 0.95em;
        }
        .total-label { color: var(--secondary-text-color, #aaa); }
        .total-price { font-weight: 700; font-size: 1.1em; }
        .search-section {
          margin-bottom: 14px;
          padding-bottom: 14px;
          border-bottom: 1px solid var(--divider-color, #333);
        }
        .search-row {
          display: flex;
          gap: 8px;
        }
        .search-input {
          flex: 1;
          background: var(--secondary-background-color, #2a2a2a);
          border: 1px solid var(--divider-color, #444);
          border-radius: 6px;
          padding: 7px 10px;
          color: var(--primary-text-color, #fff);
          font-size: 0.9em;
          outline: none;
        }
        .search-input:focus { border-color: var(--primary-color, #03a9f4); }
        .search-btn {
          background: var(--primary-color, #03a9f4);
          border: none;
          border-radius: 6px;
          padding: 7px 14px;
          color: #fff;
          font-size: 0.85em;
          cursor: pointer;
          white-space: nowrap;
        }
        .search-btn:disabled { opacity: 0.5; cursor: default; }
        .search-results {
          margin-top: 8px;
          display: flex;
          flex-direction: column;
          gap: 2px;
        }
        .search-item {
          display: flex;
          align-items: center;
          gap: 10px;
          padding: 6px 4px;
          border-radius: 6px;
        }
        .search-item:hover { background: var(--secondary-background-color, #2a2a2a); }
        .search-item-img {
          width: 40px;
          height: 40px;
          object-fit: contain;
          border-radius: 4px;
          background: #2a2a2a;
          flex-shrink: 0;
        }
        .search-item-placeholder {
          width: 40px;
          height: 40px;
          border-radius: 4px;
          background: var(--secondary-background-color, #2a2a2a);
          display: flex;
          align-items: center;
          justify-content: center;
          flex-shrink: 0;
          font-size: 1.1em;
        }
        .search-item-info { flex: 1; min-width: 0; }
        .search-item-name {
          font-size: 0.85em;
          font-weight: 500;
          white-space: nowrap;
          overflow: hidden;
          text-overflow: ellipsis;
        }
        .search-item-meta {
          font-size: 0.75em;
          color: var(--secondary-text-color, #aaa);
        }
        .search-item-price {
          font-size: 0.85em;
          font-weight: 600;
          color: var(--primary-color, #03a9f4);
          flex-shrink: 0;
        }
        .add-btn {
          background: var(--primary-color, #03a9f4);
          border: none;
          border-radius: 50%;
          width: 28px;
          height: 28px;
          color: #fff;
          font-size: 1.1em;
          cursor: pointer;
          display: flex;
          align-items: center;
          justify-content: center;
          flex-shrink: 0;
        }
        .add-btn:disabled { opacity: 0.5; cursor: default; }
        .search-status {
          font-size: 0.8em;
          color: var(--secondary-text-color, #aaa);
          padding: 6px 4px;
        }
        .search-error { color: var(--error-color, #f44336); }
      </style>
    ".

(** [cached?.image] and [cached?.textualAmount || ""] for
    [cached = this._imageCache[p.id]]. *)
Definition cached_image (c : Card) (p : Obj) : JsVal :=
  match _imageCache c !! to_string (prop "id" p) with
  | Some cached => image cached
  | None => JUndefined
  end.

Definition cached_amount (c : Card) (p : Obj) : JsVal :=
  js_or (match _imageCache c !! to_string (prop "id" p) with
         | Some cached => textualAmount cached
         | None => JUndefined
         end) (JStr []).

(** [[p.brand, amount].filter(Boolean).join(sep)]. *)
Definition meta_of (c : Card) (p : Obj) : JsString :=
  join (lit " ¬∑ ")
    (to_string <$> filter (λ v, truthy v = true) [prop "brand" p; cached_amount c p]).

(** [p.price ? `${p.price} ...` : ""]. *)
Definition price_of (p : Obj) : JsString :=
  if truthy (prop "price" p) then to_string (prop "price" p) ++ lit " Kƒç" else [].

(** One line of the cart: the callback of [this._products.map]. *)
Definition cart_item (c : Card) (p : Obj) : JsString :=
  let imgUrl := cached_image c p in
  let meta := meta_of c p in
  let imgHtml :=
    if truthy imgUrl
    then html "<img class='item-img' src='" ++ to_string imgUrl
         ++ html "' alt='' loading='lazy'>"
    else html "<div class='item-img-placeholder'>üõí</div>" in
  let price := price_of p in
  html "
          <div class='item'>
            "
  ++ imgHtml ++
  html "
            <div class='item-info'>
              <div class='item-name' title='"
  ++ to_string (prop "name" p) ++ html "'>"
  ++ to_string (js_or (prop "name" p) (JStr (lit "Product " ++ to_string (prop "id" p))))
  ++ lit "</div>
              "
  ++ (if bool_decide (meta ≠ [])
      then html "<div class='item-meta'>" ++ meta ++ html "</div>" else [])
  ++ html "
            </div>
            <div class='item-right'>
              "
  ++ (if bool_decide (price ≠ [])
      then html "<div class='item-price'>" ++ price ++ html "</div>" else [])
  ++ html "
              <div class='item-qty'>√ó "
  ++ to_string (prop "quantity" p) ++
  html "</div>
              <button class='remove-btn' data-id='"
  ++ to_string (prop "cart_item_id" p) ++ html "' title='Remove'>‚úï</button>
            </div>
          </div>
        ".

(** The variable [body] of [_render]. *)
Definition body (c : Card) : JsString :=
  if _loading c then
    html "<div class='loading'>Loading cart‚Ä¶</div>"
  else if truthy (_error c) then
    html "<div class='error'>" ++ to_string (_error c) ++ lit "</div>"
  else if bool_decide (length (_products c) = 0%nat) then
    html "<div class='empty'>Cart is empty</div>"
  else
    let items := join [] (cart_item c <$> _products c) in
    html "
        <div class='items'>"
    ++ items ++ html "</div>
        <div class='footer'>
          <span class='total-label'>Total ("
    ++ to_string (_totalItems c) ++ html " items)</span>
          <span class='total-price'>"
    ++ to_string (_totalPrice c) ++ lit " Kƒç</span>
        </div>
      ".

(** One search result: the callback of [this._searchResults.map]. *)
Definition search_item (c : Card) (p : Obj) : JsString :=
  let imgUrl := cached_image c p in
  let meta := meta_of c p in
  let imgHtml :=
    if truthy imgUrl
    then html "<img class='search-item-img' src='" ++ to_string imgUrl
         ++ html "' alt='' loading='lazy'>"
    else html "<div class='search-item-placeholder'>üõí</div>" in
  let price := price_of p in
  let adding := default false (_addingToCart c !! to_string (prop "id" p)) in
  html "
          <div class='search-item'>
            "
  ++ imgHtml ++
  html "
            <div class='search-item-info'>
              <div class='search-item-name' title='"
  ++ to_string (prop "name" p) ++ html "'>" ++ to_string (prop "name" p)
  ++ lit "</div>
              "
  ++ (if bool_decide (meta ≠ [])
      then html "<div class='search-item-meta'>" ++ meta ++ html "</div>" else [])
  ++ lit "
            </div>
            "
  ++ (if bool_decide (price ≠ [])
      then html "<div class='search-item-price'>" ++ price ++ html "</div>" else [])
  ++ html "
            <button class='add-btn' data-product-id='"
  ++ to_string (prop "id" p) ++ html "' title='Add to cart' "
  ++ (if adding then lit "disabled" else []) ++ lit ">"
  ++ (if adding then lit "‚Ä¶" else lit "+") ++
  lit "</button>
          </div>
        ".

(** The variable [searchResultsHtml] of [_render]. *)
Definition searchResultsHtml (c : Card) : JsString :=
  if _searching c then
    html "<div class='search-status'>Searching‚Ä¶</div>"
  else if truthy (_searchError c) then
    html "<div class='search-status search-error'>" ++ to_string (_searchError c)
    ++ lit "</div>"
  else if bool_decide (0 < length (_searchResults c))%nat then
    html "<div class='search-results'>"
    ++ join [] (search_item c <$> _searchResults c) ++ html "</div>"
  else [].

(** [_render()]: the markup assigned to [this.shadowRoot.innerHTML].  (The
    listeners it then attaches are the handlers below.) *)
Definition _render (c : Card) : JsString :=
  let title :=
    js_or (prop "title" (default ∅ (_config c))) (JStr (lit "Rohlik Cart")) in
  lit "
      " ++ style ++
  html "
      <div class='card'>
        <div class='header'>
          <div class='header-left'>
            <div>
              <div class='title'>"
  ++ to_string title ++
  lit "</div>
              "
  ++ (if negb (_loading c) && bool_decide (0 < length (_products c))%nat
      then html "<div class='subtitle'>" ++ lit (pretty (length (_products c)))
           ++ html " items</div>"
      else [])
  ++ html "
            </div>
          </div>
          <button class='refresh-btn' id='refresh'>‚Üª Refresh</button>
        </div>
        <div class='search-section'>
          <div class='search-row'>
            <input class='search-input' id='search-input' type='text' placeholder='Search products‚Ä¶' value='"
  ++ _searchQuery c ++ html "'>
            <button class='search-btn' id='search-btn' "
  ++ (if _searching c then lit "disabled" else []) ++ lit ">Search</button>
          </div>
          "
  ++ searchResultsHtml c ++
  lit "
        </div>
        "
  ++ body c ++
  lit "
      </div>
    ".

(** [this._render()]. *)
Definition render : M Card () :=
  c ← this; emit (Render (_render c)).

(** [setConfig(config)]. *)
Definition setConfig (config : Obj) : M Card () :=
  if negb (truthy (prop "config_entry_id" config)) then
    throw (Error (lit "config_entry_id is required"))
  else
    assign (set_config (Some config));;
    assign (set_domain (js_or (prop "domain" config) (JStr (lit "rohlikcz2"))));;
    render.

(** [await this._hass.callService(this._domain, service, data, undefined,
    true, true)] inside a [try], where [data] reads [this._config].  When
    [this._hass] or [this._config] is still [undefined], evaluating the
    call throws a [TypeError] before any request goes out; the [catch]
    that handles a rejection receives it. *)
Definition callService (service : string) (data : Obj → Obj) : M Card Outcome :=
  c ← this;
  if negb (_hass c) then mret (Rejected (TypeError_undefined "callService"))
  else match _config c with
       | None => mret (Rejected (TypeError_undefined "config_entry_id"))
       | Some config => await (CallService (_domain c) (lit service) (data config))
       end.

(** The key of a product id in a dictionary: [ToPropertyKey(id)]. *)
Definition key (id : JsVal) : JsString := to_string id.

(** The URL that [_fetchImages] builds for the ids [uncached]. *)
Definition products_url (uncached : list JsVal) : JsString :=
  lit "https://www.rohlik.cz/api/v1/products?"
  ++ join (lit "&") ((λ id, lit "products=" ++ to_string id) <$> uncached).

(** The loop [for (const item of items) this._imageCache[item.id] = ...]
    of [_fetchImages] over the elements of an array.  An element that is
    [undefined] or [null] makes [item.id] throw: the loop is left (the
    [catch] swallows the error) with what was merged so far. *)
Fixpoint merge_items (items : list JsVal) (cache : gmap JsString ImageCacheEntry)
  : gmap JsString ImageCacheEntry :=
  match items with
  | [] => cache
  | item :: rest =>
    if nullish item then cache
    else merge_items rest
           (<[ key (vprop "id" item) :=
               {| image := js_or (index0_opt (vprop "images" item)) JNull;
                  textualAmount := js_or (vprop "textualAmount" item) JNull |} ]>
            cache)
  end.

(** The same loop over whatever [resp.json()] produced.  A string is
    iterated character by character (no character has an [id]); any other
    value that is not an array is not iterable, and the [TypeError] is
    swallowed. *)
Definition merge_body (items : JsVal) (cache : gmap JsString ImageCacheEntry)
  : gmap JsString ImageCacheEntry :=
  match items with
  | JArr elems => merge_items elems cache
  | JStr (_ :: _) =>
    <[ lit "undefined" := {| image := JNull; textualAmount := JNull |} ]> cache
  | _ => cache
  end.

(** [async _fetchImages(productIds)].  The cache is a dictionary: an id
    counts as cached when it has an entry.  (In the code the dictionary is
    an object literal, so that [this._imageCache[id]] also finds the
    members of [Object.prototype]; the ids of products are numbers, none
    of which names one.  What is stated about the ids that are looked up
    is stated for the ids of [Contract.plain].) *)
Definition _fetchImages (productIds : list JsVal) : M Card () :=
  c ← this;
  let uncached := filter (λ id, _imageCache c !! key id = None) productIds in
  if bool_decide (length uncached = 0%nat) then mret ()
  else
    o ← await (Fetch (products_url uncached));
    match o with
    | Rejected _ => mret ()                          (* catch (_) {} *)
    | Resolved resp =>
      if negb (truthy (prop_opt "ok" resp)) then mret ()
      else
        o ← await ReadJson;
        match o with
        | Rejected _ => mret ()                      (* catch (_) {} *)
        | Resolved items =>
          c ← this;
          assign (set_imageCache (merge_body items (_imageCache c)))
        end
    end.

(** [async _fetchCart()]. *)
Definition _fetchCart : M Card () :=
  c ← this;
  if negb (_hass c) || _loading c then mret ()
  else
    assign (set_loading true);;
    assign (set_error JNull);;
    render;;
    o ← callService "get_cart_content" (λ config,
           {[ lit "config_entry_id" := prop "config_entry_id" config ]});
    match o with
    | Resolved result =>
      let data := js_or (prop_opt "response" result) result in
      assign (set_products (objects (js_or (prop_opt "products" data) (JArr []))));;
      assign (set_totalPrice (js_or (prop_opt "total_price" data) (JNum (int 0))));;
      assign (set_totalItems (js_or (prop_opt "total_items" data) (JNum (int 0))));;
      c ← this;
      if bool_decide (0 < length (_products c))%nat
      then _fetchImages (prop "id" <$> _products c)
      else mret ()
    | Rejected e =>
      assign (set_error (js_or (prop "message" e) (JStr (lit "Failed to load cart"))))
    end;;
    assign (set_loading false);;
    render.

(** [set hass(hass)]. *)
Definition hass_setter : M Card () :=
  assign (set_hass true);;
  c ← this;
  if negb (_loaded c) then assign (set_loaded true);; _fetchCart else mret ().

(** [async _searchProducts(query)]. *)
Definition _searchProducts (query : JsString) : M Card () :=
  if negb (truthy (JStr query)) || bool_decide (length (trim query) < 2)%nat then
    assign (set_searchResults []);;
    assign (set_searchError JNull);;
    render
  else
    assign (set_searching true);;
    assign (set_searchError JNull);;
    render;;
    o ← callService "search_product" (λ config,
           {[ lit "config_entry_id" := prop "config_entry_id" config;
              lit "product_name" := JStr query;
              lit "limit" := JNum (int 10) ]});
    match o with
    | Resolved result =>
      let data := js_or (prop_opt "response" result) result in
      let raw := objects (js_or (prop_opt "search_results" data) (JArr [])) in
      assign (set_searchResults raw);;
      if bool_decide (0 < length raw)%nat
      then _fetchImages (prop "id" <$> raw)
      else mret ()
    | Rejected e =>
      assign (set_searchError (js_or (prop "message" e) (JStr (lit "Search failed"))));;
      assign (set_searchResults [])
    end;;
    assign (set_searching false);;
    render.

(** [async _addToCart(productId)]. *)
Definition _addToCart (productId : JsVal) : M Card () :=
  c ← this;
  assign (set_addingToCart (<[ key productId := true ]> (_addingToCart c)));;
  render;;
  o ← callService "add_to_cart" (λ config,
         {[ lit "config_entry_id" := prop "config_entry_id" config;
            lit "product_id" := productId;
            lit "quantity" := JNum (int 1) ]});
  match o with
  | Resolved _ =>
    assign (set_loaded false);;
    _fetchCart
  | Rejected e =>
    assign (set_error
      (JStr (lit "Failed to add item: " ++ to_string (prop "message" e))))
  end;;
  c ← this;
  assign (set_addingToCart (<[ key productId := false ]> (_addingToCart c)));;
  render.

(** [async _removeFromCart(cartItemId)]. *)
Definition _removeFromCart (cartItemId : JsVal) : M Card () :=
  o ← callService "delete_from_cart" (λ config,
         {[ lit "config_entry_id" := prop "config_entry_id" config;
            lit "order_field_id" := cartItemId ]});
  match o with
  | Resolved _ => _fetchCart
  | Rejected e =>
    assign (set_error
      (JStr (lit "Failed to remove item: " ++ to_string (prop "message" e))));;
    render
  end.

(** The listeners that [_render] attaches. *)
Definition refresh_click : M Card () :=
  assign (set_loaded false);; _fetchCart.

Definition search_click (value : JsString) : M Card () :=
  assign (set_searchQuery value);; _searchProducts value.

Definition search_input (value : JsString) : M Card () :=
  assign (set_searchQuery value);;
  if negb (truthy (JStr value)) then
    assign (set_searchResults []);;
    assign (set_searchError JNull);;
    render
  else mret ().

(** [static getStubConfig()]. *)
Definition getStubConfig : Obj :=
  {[ lit "config_entry_id" := JStr []; lit "title" := JStr (lit "Rohlik Cart") ]}.

End CartCard.

(** ** What the two classes offer the dashboard *)

Module Lovelace.
Import Js Async.

(** The members through which the dashboard drives a custom card.  A
    member that the class does not define is [None] (the host reads
    [undefined]). *)
Record CardClass (S : Type) := mkCardClass {
  tag : string;
  new : S;
  setConfig : Obj → M S ();
  hass : M S ();
  getCardSize : option (S → Z);
  getStubConfig : Obj;
}.
#[global] Arguments tag {S}.
#[global] Arguments new {S}.
#[global] Arguments setConfig {S}.
#[global] Arguments hass {S}.
#[global] Arguments getCardSize {S}.
#[global] Arguments getStubConfig {S}.

Definition RohlikczShoppingListCard : CardClass ListCard.Card :=
  {| tag := "rohlikcz-shopping-list-card";
     new := ListCard.constructor;
     setConfig := ListCard.setConfig;
     hass := ListCard.hass_setter;
     getCardSize := Some ListCard.getCardSize;
     getStubConfig := ListCard.getStubConfig |}.

Definition RohlikczCartCard : CardClass CartCard.Card :=
  {| tag := "rohlikcz-cart-card";
     new := CartCard.constructor;
     setConfig := CartCard.setConfig;
     hass := CartCard.hass_setter;
     getCardSize := None;
     getStubConfig := CartCard.getStubConfig |}.

End Lovelace.

(** ** Notions used to state the properties *)

Module Notions.
Import Js Async.

(** [hay.startsWith(needle)] and [hay.includes(needle)]. *)
Fixpoint starts_with (needle hay : JsString) : bool :=
  match needle, hay with
  | [], _ => true
  | a :: needle', b :: hay' => (a =? b) && starts_with needle' hay'
  | _ :: _, [] => false
  end.

Fixpoint occurs (needle hay : JsString) : bool :=
  starts_with needle hay
  || match hay with
     | [] => false
     | _ :: rest => occurs needle rest
     end.

(** The characters that delimit tags and attribute values in the markup:
    [<], [>] and the double quote. *)
Definition markup (s : JsString) : JsString :=
  filter (λ ch, ch ∈ [60; 62; 34]) s.

(** What follows the [&] of the four substitutions of [_escHtml]. *)
Definition entities : list JsString :=
  [lit "amp;"; lit "lt;"; lit "gt;"; lit "quot;"].

(** What [_escHtml] makes of a string, and of one character. *)
Definition esc (s : JsString) : JsString :=
  replace_all 34 (lit "&quot;")
    (replace_all 62 (lit "&gt;")
      (replace_all 60 (lit "&lt;")
        (replace_all 38 (lit "&amp;") s))).

Definition esc_char (ch : N) : JsString :=
  if ch =? 38 then lit "&amp;"
  else if ch =? 60 then lit "&lt;"
  else if ch =? 62 then lit "&gt;"
  else if ch =? 34 then lit "&quot;"
  else [ch].

(** The shape of the list card: everything in [this] that selects parts
    of the template, and none of the texts that fill them.  For a
    product, whether the row shows a brand, an amount and a price. *)
Definition item_shape (product : Obj) : bool * bool * bool :=
  (truthy (ListCard.row_brand product),
   truthy (ListCard.row_amount product),
   truthy (ListCard.row_price product)).

Definition shape (c : ListCard.Card)
  : bool * bool * list (bool * bool * bool) * bool * list bool :=
  (ListCard._loading c,
   truthy (ListCard._error c),
   item_shape <$> ListCard._items c,
   ListCard._addingAll c,
   ListCard.ok <$> ListCard._addResults c).

(** The request and the log entry of [_addAllToCart] for one product. *)
Definition add_request (c : ListCard.Card) (config product : Obj) : Request :=
  CallService (ListCard._domain c) (lit "add_to_cart")
    {[ lit "config_entry_id" := prop "config_entry_id" config;
       lit "product_id" := js_qq (prop "productId" product) (prop "id" product);
       lit "quantity" := JNum (int 1) ]}.

Definition add_entry (product : Obj) (o : Outcome) : ListCard.AddResult :=
  let display := js_qq (prop "productName" product) (prop "name" product) in
  match o with
  | Resolved _ => ListCard.mkAddResult display true None
  | Rejected e => ListCard.mkAddResult display false (Some (prop "message" e))
  end.

(** The in-flight flag of the cart card for the product with key [k]: the
    other handlers leave it alone; it has the value [b]. *)
Definition same_flag (k : JsString) (c c' : CartCard.Card) : Prop :=
  CartCard._addingToCart c' !! k = CartCard._addingToCart c !! k.

Definition flag_is (k : JsString) (b : bool) (c : CartCard.Card) : Prop :=
  CartCard._addingToCart c !! k = Some b.

End Notions.

#[global] Arguments ListCard._render : simpl never.
#[global] Arguments ListCard._renderBody : simpl never.
#[global] Arguments CartCard._render : simpl never.
#[global] Arguments CartCard.body : simpl never.

(** ** Cards and answers used as examples *)

Module Examples.
Import Js Async.

(** A product of a shopping list. *)
Definition product (name : string) (id : Z) : Obj :=
  {[ lit "productName" := JStr (lit name); lit "productId" := JNum (int id) ]}.

Definition A : Obj := product "A" 1.
Definition B : Obj := product "B" 2.
Definition C : Obj := product "C" 3.
Definition milk : Obj := product "Milk" 10.

(** The configuration and the answer of [get_shopping_list] for a list
    with the given products. *)
Definition list_config : Obj :=
  {[ lit "config_entry_id" := JStr (lit "x");
     lit "shopping_list_id" := JStr (lit "42") ]}.

Definition shopping_list (products : list Obj) : JsVal :=
  JObj {[ lit "response" :=
            JObj {[ lit "name" := JStr (lit "Weekly");
                    lit "products_in_list" := JArr (JObj <$> products) ]} ]}.

(** The list card once the dashboard has configured it, handed in [hass],
    and the first fetch has brought the products. *)
Definition list_card (products : list Obj) : ListCard.Card :=
  (deliver (bind (ListCard.setConfig list_config) (λ _, ListCard.hass_setter)
              ListCard.constructor)
           (alone [Resolved (shopping_list products)])).1.2.

(** The cart card of the end-to-end scenario: one line, two bottles of
    milk; the image lookup fails. *)
Definition cart_config : Obj := {[ lit "config_entry_id" := JStr (lit "x") ]}.

Definition cart_line : Obj :=
  {[ lit "id" := JNum (int 10); lit "name" := JStr (lit "Milk");
     lit "quantity" := JNum (int 2); lit "price" := JNum (int 30);
     lit "cart_item_id" := JStr (lit "1") ]}.

Definition cart_content : JsVal :=
  JObj {[ lit "response" :=
            JObj {[ lit "products" := JArr [JObj cart_line];
                    lit "total_price" := JNum (int 30);
                    lit "total_items" := JNum (int 2) ]} ]}.

Definition cart_card : CartCard.Card :=
  (deliver (bind (CartCard.setConfig cart_config) (λ _, CartCard.hass_setter)
              CartCard.constructor)
           (alone [Resolved cart_content; Rejected (Error (lit "offline"))])).1.2.



End Examples.

(** ** What can happen to a card *)

Module ListEvents.
Import Js Async.

(** What the dashboard and the user can do to a list card once it is
    configured: the dashboard assigns [hass]; the user presses Refresh,
    "Add all to cart", or the [+] button of the row [idx] (the listeners
    that [_render] attaches). *)
Inductive Action : Type :=
| SetHass
| PressRefresh
| PressAddAll
| PressAdd (idx : nat).

Definition handle (a : Action) : M ListCard.Card () :=
  match a with
  | SetHass => ListCard.hass_setter
  | PressRefresh => ListCard.refresh_click
  | PressAddAll => ListCard.add_all_click
  | PressAdd idx => ListCard.add_click idx
  end.

End ListEvents.

Module CartEvents.
Import Js Async.

(** The same for a cart card.  The Search button and the Enter key of the
    search field run the same code on the text of the field;
    [TypeQuery] is the [input] event of the field.  The [+] button of a
    search result passes [Number(btn.dataset.productId)], the remove
    button of a line [btn.dataset.id]. *)
Inductive Action : Type :=
| SetHass
| PressRefresh
| PressSearch (value : JsString)
| TypeQuery (value : JsString)
| PressAdd (productId : JsVal)
| PressRemove (cartItemId : JsVal).

Definition handle (a : Action) : M CartCard.Card () :=
  match a with
  | SetHass => CartCard.hass_setter
  | PressRefresh => CartCard.refresh_click
  | PressSearch value => CartCard.search_click value
  | TypeQuery value => CartCard.search_input value
  | PressAdd productId => CartCard._addToCart productId
  | PressRemove cartItemId => CartCard._removeFromCart cartItemId
  end.

End CartEvents.

(** ** The page of the list card over time *)

Module Session.
Import Js Async Toast.

(** One thing after the other happens to the page: the card does
    something (it renders, it shows a toast), or time goes by. *)
Inductive Happening : Type :=
| Does (ev : Event)
| Waits (d : nat).

Definition happen (p : Page) (h : Happening) : Page :=
  match h with
  | Does ev => on_event ev p
  | Waits d => advance d p
  end.

(** The page after the happenings [hs], starting from the page of a card
    that has not rendered yet. *)
Definition after (hs : list Happening) : Page := foldl happen initial hs.

(** The events of a run of the card, applied to the page in order. *)
Definition play (tr : list Event) (p : Page) : Page :=
  foldl (λ p ev, on_event ev p) p tr.

(** The toast of the shadow root and the elements that the pending timers
    hold all exist. *)
Definition wf (p : Page) : Prop :=
  (∀ i, mounted p = Some i → (i < length (elements p))%nat)
  ∧ Forall (λ tm, (target tm < length (elements p))%nat) (timers p).

End Session.

(** ** Notions used to state the further properties *)

Module Requests.
Import Js Async Notions.

(** The only address that the cards fetch from, up to the query. *)
Definition catalog : JsString := lit "https://www.rohlik.cz/api/v1/products?".

(** [within services http rq]: the request [rq] is a call of one of
    [services]; or, when [http] is set, a lookup in the catalog or the
    reading of its answer. *)
Definition within (services : list string) (http : bool) (rq : Request) : bool :=
  match rq with
  | CallService _ service _ => bool_decide (service ∈ lit <$> services)
  | Fetch url => http && starts_with catalog url
  | ReadJson => http
  end.

End Requests.

Module Entities.
Import Js Notions.

(** Every [&] of [s] starts one of the four entities of [_escHtml]. *)
Definition amp_safe (s : JsString) : Prop :=
  ∀ pre post,
    s = pre ++ 38 :: post → ∃ ent, ent ∈ entities ∧ ent `prefix_of` post.

End Entities.

(** ** What the cards expect of the backend *)

Module Contract.
Import Js Async.

(** The names that every object inherits from [Object.prototype]: a
    lookup [dict[name]] finds them in every object literal, whatever its
    own entries, and the assignment [dict.__proto__ = v] replaces the
    prototype instead of adding an entry. *)
Definition Object_prototype : list JsString :=
  lit <$> [ "constructor"; "hasOwnProperty"; "isPrototypeOf";
            "propertyIsEnumerable"; "toLocaleString"; "toString"; "valueOf";
            "__proto__"; "__defineGetter__"; "__defineSetter__";
            "__lookupGetter__"; "__lookupSetter__" ]%string.

(** An id that can serve as a key of a dictionary: its key names no member
    of [Object.prototype]. *)
Definition plain (id : JsVal) : Prop := CartCard.key id ∉ Object_prototype.




End Contract.

(** * Properties *)

#[local] Close Scope N_scope.
Import Js Async Notions.

(** ** Runs of a resumption *)

Section Running.
Context {S : Type}.
Implicit Types (r : Res S ()) (out : list Event).

Lemma emitted_nil {A} (r : Res S A) : emitted [] r = r.
Proof. by destruct r. Qed.

Lemma emitted_emitted {A} out1 out2 (r : Res S A) :
  emitted out1 (emitted out2 r) = emitted (out1 ++ out2) r.
Proof. destruct r; simpl; by rewrite app_assoc. Qed.

Lemma bindR_emitted {A B} out (r : Res S A) (f : A → M S B) :
  bindR (emitted out r) f = emitted out (bindR r f).
Proof.
  destruct r; simpl; [|done..].
  by rewrite emitted_emitted.
Qed.

Lemma deliver_emitted {A} out (r : Res S A) steps :
  deliver (emitted out r) steps
  = let '(st, s, tr) := deliver r steps in (st, s, out ++ tr).
Proof.
  destruct r as [a s o|e s o|rq s o k]; simpl; [done..|].
  destruct steps as [|[others o'] steps]; simpl.
  - by rewrite app_assoc.
  - destruct (deliver (k o' (others s)) steps) as [[st s'] tr].
    by rewrite <- app_assoc.
Qed.
End Running.

(** ** Properties of every run *)

Section Every.
Context {S : Type}.
Implicit Types (s : S) (out : list Event) (rq : Request).

Lemma calls_app tr1 tr2 : calls (tr1 ++ tr2) = calls tr1 ++ calls tr2.
Proof. unfold calls. apply omap_app. Qed.

Lemma Never_emitted P {A} out (r : Res S A) :
  calls out = [] → Never P r → Never P (emitted out r).
Proof.
  intros Ho [a s o Hc|e s o Hc|rq s o k Hc HP Hk]; simpl; constructor;
    rewrite ?calls_app, ?Ho, ?Hc; auto.
Qed.

Lemma Never_bindR P {A B} (r : Res S A) (f : A → M S B) :
  Never P r → (∀ a s, Never P (f a s)) → Never P (bindR r f).
Proof.
  intros Hr Hf. induction Hr as [a s o Hc|e s o Hc|rq s o k Hc HP Hk IH]; simpl.
  - by apply Never_emitted.
  - by constructor.
  - constructor; auto.
Qed.

Lemma Never_bind P {A B} (m : M S A) (f : A → M S B) s :
  Never P (m s) → (∀ a s', Never P (f a s')) → Never P (bind m f s).
Proof. apply Never_bindR. Qed.

Lemma Never_ret P {A} (a : A) s : Never P (ret a s).
Proof. by constructor. Qed.
Lemma Never_this P s : Never P (this s).
Proof. by constructor. Qed.
Lemma Never_assign P f s : Never P (assign f s).
Proof. by constructor. Qed.
Lemma Never_render P markup s : Never P (emit (Render markup) s).
Proof. by constructor. Qed.
Lemma Never_await P rq s : P rq = false → Never P (await rq s).
Proof. intros. constructor; [done..|]. intros. by constructor. Qed.

(** What [Never] says about a run. *)
Lemma Never_deliver P {A} (r : Res S A) :
  Never P r → ∀ steps,
  filter (λ rq, P rq = true) (calls (deliver r steps).2) = [].
Proof.
  induction 1 as [a s o Hc|e s o Hc|rq s o k Hc HP Hk IH]; intros steps; simpl.
  - by rewrite Hc.
  - by rewrite Hc.
  - destruct steps as [|[others o'] steps].
    + simpl. rewrite calls_app, Hc. simpl.
      rewrite filter_cons_False; [done|]. by rewrite HP.
    + specialize (IH o' (others s) steps).
      destruct (deliver (k o' (others s)) steps) as [[st s'] tr]. simpl in *.
      rewrite calls_app, Hc. simpl.
      rewrite filter_cons_False; [done|]. by rewrite HP.
Qed.

(** A method that hands out one request [rq] with [P rq] and none
    afterwards. *)
Lemma once_deliver P {A} rq s out (k : Outcome → S → Res S A) steps :
  calls out = [] → P rq = true → (∀ o s', Never P (k o s')) →
  filter (λ rq, P rq = true) (calls (deliver (Susp rq s out k) steps).2) = [rq].
Proof.
  intros Hc HP Hk. simpl. destruct steps as [|[others o'] steps].
  - simpl. rewrite calls_app, Hc. simpl. by rewrite filter_cons_True.
  - pose proof (Never_deliver P _ (Hk o' (others s)) steps) as Hn.
    destruct (deliver (k o' (others s)) steps) as [[st s'] tr]. simpl in *.
    rewrite calls_app, Hc. simpl. rewrite filter_cons_True by done. by rewrite Hn.
Qed.

Lemma Keeps_emitted rely W F {A} out (r : Res S A) :
  Keeps rely W F r → Keeps rely W F (emitted out r).
Proof. intros [a s o HF|rq s o k HW Hk]; simpl; by constructor. Qed.

Lemma Keeps_bindR rely W F F' {A B} (r : Res S A) (f : A → M S B) :
  Keeps rely W F' r →
  (∀ a s, F' s → Keeps rely W F (f a s)) →
  Keeps rely W F (bindR r f).
Proof.
  intros Hr Hf. induction Hr as [a s o HF|rq s o k HW Hk IH]; simpl.
  - by apply Keeps_emitted, Hf.
  - constructor; auto.
Qed.

Lemma Keeps_bind rely W F F' {A B} (m : M S A) (f : A → M S B) s :
  Keeps rely W F' (m s) →
  (∀ a s', F' s' → Keeps rely W F (f a s')) →
  Keeps rely W F (bind m f s).
Proof. apply Keeps_bindR. Qed.

Lemma Keeps_deliver rely W F {A} (r : Res S A) :
  Keeps rely W F r → ∀ steps,
  Forall (λ step, ∀ s, rely s (step.1 s)) steps →
  match deliver r steps with
  | (Returned _, s, _) => F s
  | (Pending _, s, _) => W s
  | (Thrown _, _, _) => False
  end.
Proof.
  induction 1 as [a s o HF|rq s o k HW Hk IH]; intros steps Hsteps; simpl; [done|].
  destruct steps as [|[others o'] steps]; [done|].
  inversion Hsteps as [|? ? Hothers Hrest]; subst. simpl in Hothers.
  specialize (IH o' (others s) (Hothers s) steps Hrest).
  by destruct (deliver (k o' (others s)) steps) as [[[?|?|?] s'] tr].
Qed.

Lemma Keeps_ret rely W (F : S → Prop) {A} (a : A) s :
  F s → Keeps rely W F (ret a s).
Proof. by constructor. Qed.
Lemma Keeps_this rely W (F : S → Prop) s : F s → Keeps rely W F (this s).
Proof. by constructor. Qed.
Lemma Keeps_assign rely W (F : S → Prop) g s :
  F (g s) → Keeps rely W F (assign g s).
Proof. by constructor. Qed.
Lemma Keeps_emit rely W (F : S → Prop) ev s : F s → Keeps rely W F (emit ev s).
Proof. by constructor. Qed.
Lemma Keeps_await rely (W F : S → Prop) rq s :
  W s → (∀ s', rely s s' → F s') → Keeps rely W F (await rq s).
Proof. intros HW HF. constructor; [done|]. intros o s' Hr. constructor. auto. Qed.

(** The first steps of a method, by computation. *)
Lemma bind_this_eq {A} (f : S → M S A) s : bind this f s = emitted [] (f s s).
Proof. reflexivity. Qed.
Lemma bind_assign_eq {A} g (f : () → M S A) s :
  bind (assign g) f s = emitted [] (f () (g s)).
Proof. reflexivity. Qed.
Lemma bind_emit_eq {A} ev (f : () → M S A) s :
  bind (emit ev) f s = emitted [ev] (f () s).
Proof. reflexivity. Qed.
Lemma bind_ret_eq {A B} (a : A) (f : A → M S B) s :
  bind (ret a) f s = emitted [] (f a s).
Proof. reflexivity. Qed.
End Every.

(** Taking a method apart along its [bind]s. *)
Ltac unfold_bind := unfold mbind, M_bind, mret, M_ret; cbv beta.

Ltac never_step :=
  match goal with
  | |- Never _ (ret _ _) => apply Never_ret
  | |- Never _ (this _) => apply Never_this
  | |- Never _ (assign _ _) => apply Never_assign
  | |- Never _ (emit (Render _) _) => apply Never_render
  | |- Never _ (await _ _) => apply Never_await; reflexivity
  | |- Never _ (bind _ _ _) => apply Never_bind; [|intros ? ?]
  | |- Never _ ((if ?b then _ else _) _) => destruct b
  | |- Never _ (match ?o with Resolved _ => _ | Rejected _ => _ end _) =>
    destruct o
  | |- Never _ (match ?o with Some _ => _ | None => _ end _) => destruct o
  | |- Never _ ((let _ := _ in _) _) => cbv zeta
  end.

Ltac never := repeat never_step.

(** The same for [Keeps], with the waiting condition as the condition in
    between; [side] proves that an assignment keeps it. *)
Ltac keeps_step side :=
  match goal with
  | |- Keeps _ _ _ (ret _ _) => apply Keeps_ret; side
  | |- Keeps _ _ _ (this _) => apply Keeps_this; side
  | |- Keeps _ _ _ (assign _ _) => apply Keeps_assign; side
  | |- Keeps _ _ _ (emit _ _) => apply Keeps_emit; side
  | |- Keeps _ _ _ (await _ _) => apply Keeps_await; [side|intros ? ?; side]
  | |- Keeps ?rely ?W _ (bind _ _ _) =>
    apply (Keeps_bind rely W _ W); [|intros ? ? ?]
  | |- Keeps _ _ _ ((if ?b then _ else _) _) => destruct b
  | |- Keeps _ _ _ (match ?o with Resolved _ => _ | Rejected _ => _ end _) =>
    destruct o
  | |- Keeps _ _ _ (match ?o with Some _ => _ | None => _ end _) => destruct o
  | |- Keeps _ _ _ ((let _ := _ in _) _) => cbv zeta
  end.


(** ** The shopping-list card *)

Module ListCardFacts.
Import ListCard.

(** *** Escaping *)

Section Escaping.
#[local] Open Scope N_scope.

Lemma replace_all_app c r (a b : JsString) :
  replace_all c r (a ++ b) = replace_all c r a ++ replace_all c r b.
Proof. unfold replace_all. apply bind_app. Qed.

Lemma esc_app a b : esc (a ++ b) = esc a ++ esc b.
Proof. unfold esc. by rewrite !replace_all_app. Qed.

Lemma esc_one ch : esc [ch] = esc_char ch.
Proof.
  unfold esc, esc_char, replace_all. cbn [mbind list_bind].
  destruct (ch =? 38) eqn:E38; [by vm_compute|].
  destruct (ch =? 60) eqn:E60.
  { cbn [app mbind list_bind]. rewrite E60. by vm_compute. }
  cbn [app mbind list_bind]. rewrite E60.
  destruct (ch =? 62) eqn:E62.
  { cbn [app mbind list_bind]. rewrite E62. by vm_compute. }
  cbn [app mbind list_bind]. rewrite E62.
  destruct (ch =? 34) eqn:E34.
  { cbn [app mbind list_bind]. rewrite E34. by vm_compute. }
  cbn [app mbind list_bind]. by rewrite E34.
Qed.

Lemma esc_cons ch s : esc (ch :: s) = esc_char ch ++ esc s.
Proof. by rewrite <- esc_one, <- esc_app. Qed.

Lemma _escHtml_esc v : _escHtml v = esc (to_string v).
Proof. reflexivity. Qed.

Lemma esc_char_cases ch :
  (∃ ent, ent ∈ entities ∧ (38 ∉ ent) ∧ Forall (λ x, x ∉ [60; 62; 34]) ent
          ∧ esc_char ch = 38 :: ent)
  ∨ ((ch ∉ [38; 60; 62; 34]) ∧ esc_char ch = [ch]).
Proof.
  unfold esc_char.
  destruct (ch =? 38) eqn:E38.
  { left. exists (lit "amp;"). vm_compute. repeat split; [set_solver..|].
    repeat constructor; set_solver. }
  destruct (ch =? 60) eqn:E60.
  { left. exists (lit "lt;"). vm_compute. repeat split; [set_solver..|].
    repeat constructor; set_solver. }
  destruct (ch =? 62) eqn:E62.
  { left. exists (lit "gt;"). vm_compute. repeat split; [set_solver..|].
    repeat constructor; set_solver. }
  destruct (ch =? 34) eqn:E34.
  { left. exists (lit "quot;"). vm_compute. repeat split; [set_solver..|].
    repeat constructor; set_solver. }
  right. split; [|done].
  apply N.eqb_neq in E38, E60, E62, E34. set_solver.
Qed.

Lemma esc_clean s : Forall (λ ch, ch ∉ [60; 62; 34]) (esc s).
Proof.
  induction s as [|ch s IH]; [constructor|].
  rewrite esc_cons. apply Forall_app. split; [|done].
  destruct (esc_char_cases ch) as [(ent & _ & _ & Hent & ->)|[Hch ->]].
  - constructor; [set_solver|done].
  - constructor; [set_solver|constructor].
Qed.

Lemma esc_amp s : ∀ pre post,
  esc s = pre ++ 38 :: post →
  ∃ ent, ent ∈ entities ∧ (ent `prefix_of` post).
Proof.
  induction s as [|ch s IH]; intros pre post H.
  { by destruct pre. }
  rewrite esc_cons in H.
  apply app_eq_app in H as [l [[H1 H2]|[H1 H2]]].
  - destruct l as [|a l].
    + rewrite app_nil_l in H2. by apply (IH [] post).
    + injection H2 as <- ->.
      destruct (esc_char_cases ch) as [(ent & Hin & Hno & _ & He)|[Hch He]];
        rewrite He in H1.
      * destruct pre as [|b pre]; simpl in H1.
        -- injection H1 as H1. subst l. exists ent. split; [done|].
           by apply prefix_app_r.
        -- injection H1 as _ H1. exfalso. apply Hno. rewrite H1. set_solver.
      * destruct pre as [|b [|? ?]]; simpl in H1; [|done..].
        injection H1 as H1. set_solver.
  - by apply (IH l post).
Qed.

(** *** The markup of a rendered card *)

Lemma markup_app a b : markup (a ++ b) = markup a ++ markup b.
Proof. apply filter_app. Qed.

Lemma markup_clean s : Forall (λ ch, ch ∉ [60; 62; 34]) s → markup s = [].
Proof.
  induction 1 as [|ch s Hch _ IH]; [done|].
  unfold markup. rewrite filter_cons_False by done. exact IH.
Qed.

Lemma markup_escHtml v : markup (_escHtml v) = [].
Proof. apply markup_clean, esc_clean. Qed.

Lemma join_nil_concat (l : list JsString) : join [] l = concat l.
Proof.
  induction l as [|a [|b l] IH]; [done| |].
  - simpl. by rewrite app_nil_r.
  - change (join [] (a :: b :: l)) with (a ++ [] ++ join [] (b :: l)).
    by rewrite IH.
Qed.

Lemma markup_concat (l : list JsString) : markup (concat l) = concat (markup <$> l).
Proof.
  induction l as [|a l IH]; [done|].
  simpl. by rewrite markup_app, IH.
Qed.

Lemma markup_if (b : bool) (x y : JsString) :
  markup (if b then x else y) = if b then markup x else markup y.
Proof. by destruct b. Qed.

Lemma item_row_markup p1 p2 idx :
  item_shape p1 = item_shape p2 →
  markup (item_row p1 idx) = markup (item_row p2 idx).
Proof.
  unfold item_shape. intros [= Hb Ha Hp].
  unfold item_row. cbv zeta.
  rewrite !markup_app, !markup_if, !markup_app, !markup_escHtml.
  by rewrite Hb, Ha, Hp.
Qed.

Lemma rows_markup (l1 : list Obj) : ∀ (l2 : list Obj) (k : nat),
  item_shape <$> l1 = item_shape <$> l2 →
  markup <$> imap (λ idx product, item_row product (k + idx)) l1
  = markup <$> imap (λ idx product, item_row product (k + idx)) l2.
Proof.
  induction l1 as [|p1 l1 IH]; intros [|p2 l2] k H; try done.
  assert (Hp : item_shape p1 = item_shape p2)
    by exact (f_equal (λ l, default (item_shape p1) (head l)) H).
  assert (Hl : item_shape <$> l1 = item_shape <$> l2)
    by exact (f_equal tail H).
  rewrite !imap_cons, !fmap_cons. f_equal.
  - by apply item_row_markup.
  - rewrite (imap_ext _ (λ idx product, item_row product (S k + idx)) l1),
            (imap_ext _ (λ idx product, item_row product (S k + idx)) l2).
    + by apply IH.
    + intros i x _. simpl. f_equal. lia.
    + intros i x _. simpl. f_equal. lia.
Qed.

Lemma chips_markup (l1 : list AddResult) : ∀ l2 : list AddResult,
  ok <$> l1 = ok <$> l2 →
  markup <$> (result_chip <$> l1) = markup <$> (result_chip <$> l2).
Proof.
  induction l1 as [|r1 l1 IH]; intros [|r2 l2] H; try done.
  assert (Hr : ok r1 = ok r2) by exact (f_equal (λ l, default true (head l)) H).
  assert (Hl : ok <$> l1 = ok <$> l2) by exact (f_equal tail H).
  rewrite !fmap_cons. f_equal; [|by apply IH].
  unfold result_chip. rewrite !markup_app, !markup_if, !markup_escHtml.
  by rewrite Hr.
Qed.

Lemma body_markup c1 c2 :
  shape c1 = shape c2 → markup (_renderBody c1) = markup (_renderBody c2).
Proof.
  unfold shape. intros [= Hl He Hi Ha Hr].
  unfold _renderBody. rewrite Hl, He.
  rewrite <- (length_fmap item_shape (_items c1)), Hi, length_fmap.
  destruct (_loading c2); [done|]. destruct (truthy (_error c2)).
  { by rewrite !markup_app, !markup_escHtml. }
  case_bool_decide; [done|].
  assert (Hrows :
    markup <$> imap (λ idx product, item_row product idx) (_items c1)
    = markup <$> imap (λ idx product, item_row product idx) (_items c2))
    by exact (rows_markup _ _ 0%nat Hi).
  rewrite !markup_app, !join_nil_concat, !markup_concat.
  by rewrite Hrows.
Qed.

Lemma render_markup c1 c2 :
  shape c1 = shape c2 → markup (_render c1) = markup (_render c2).
Proof.
  intros H. pose proof (body_markup c1 c2 H) as Hbody.
  unfold shape in H. injection H as Hl He Hi Ha Hr.
  unfold _render. cbv zeta.
  rewrite <- (length_fmap item_shape (_items c1)), Hi, length_fmap.
  rewrite <- (length_fmap ok (_addResults c1)), Hr, length_fmap.
  rewrite Ha.
  rewrite !markup_app, !markup_if, !markup_app, !markup_if, !markup_escHtml,
          !join_nil_concat, !markup_concat.
  by rewrite Hbody, (chips_markup _ _ Hr).
Qed.

(** C10.  For every value [v], [_escHtml(v)] contains none of the characters
    [<], [>] and double quote, and every [&] in it starts one of [&amp;],
    [&lt;], [&gt;], [&quot;].  Every backend text that [_render] puts into
    the markup (title, names, brands, amounts, prices, the error, the names
    of the result log) goes through [_escHtml]: two cards of the same shape
    yield the same sequence of [<], [>] and double quotes, whatever their
    texts are. *)
Theorem list_card_escapes (v : JsVal) (c1 c2 : Card) :
  Forall (λ ch, ch ∉ [60; 62; 34]) (_escHtml v)
  ∧ (∀ pre post,
       _escHtml v = pre ++ 38 :: post →
       ∃ ent, ent ∈ entities ∧ (ent `prefix_of` post))
  ∧ (shape c1 = shape c2 → markup (_render c1) = markup (_render c2)).
Proof.
  split; [apply esc_clean|split; [apply esc_amp|apply render_markup]].
Qed.

Lemma list_card_escapes_witness :
  let text := JStr (html "<a href='x'>Tom & Jerry</a>") in
  let plain := Examples.list_card [Examples.milk] in
  let hostile :=
    Examples.list_card [Examples.product "<script>alert(1)</script>" 10] in
  Forall (λ ch, ch ∉ [60; 62; 34]) (_escHtml text)
  ∧ markup (_render hostile) = markup (_render plain).
Proof.
  intros text plain hostile.
  pose proof (list_card_escapes text hostile plain) as (Hclean & _ & Hmarkup).
  split; [exact Hclean|].
  apply Hmarkup. vm_compute. reflexivity.
Defined.

End Escaping.

(** *** The batch add *)

Lemma add_each_cons (c : Card) config product rest results :
  _hass c = true → _config c = Some config →
  add_each (product :: rest) results c
  = Susp (add_request c config product) c []
      (λ o c', emitted [] (add_each rest (results ++ [add_entry product o]) c')).
Proof.
  destruct c. simpl. intros -> ->. reflexivity.
Qed.

Lemma deliver_add_each {B} (c : Card) config (K : list AddResult → M Card B) :
  _hass c = true → _config c = Some config →
  ∀ products outcomes results more,
  length outcomes = length products →
  deliver (bindR (add_each products results c) K) (alone outcomes ++ more)
  = let '(st, c', tr) :=
      deliver (K (results ++ zip_with add_entry products outcomes) c) more in
    (st, c',
     concat (zip_with (λ p o, [Call (add_request c config p); Settle o])
                      products outcomes) ++ tr).
Proof.
  intros Hh Hc. induction products as [|p ps IH]; intros [|o os] results more Hlen;
    try done.
  - simpl. rewrite emitted_nil, app_nil_r.
    by destruct (deliver (K results c) more) as [[??]?].
  - rewrite (add_each_cons c config) by done.
    simpl. rewrite bindR_emitted, emitted_nil.
    rewrite IH by (simpl in Hlen; lia).
    rewrite <- app_assoc. simpl.
    by destruct (deliver _ more) as [[??]?].
Qed.

Lemma add_all_unfold (c : Card) :
  let busy := set_addResults [] (set_addingAll true c) in
  _addAllToCart c
  = emitted [Render (_render busy)]
      (bindR (add_each (_items c) [] busy)
         (λ results, assign (set_addResults results);;
                     assign (set_addingAll false);; render)).
Proof.
  intros busy. unfold _addAllToCart.
  change (_items c) with (_items busy).
  unfold mbind, M_bind, bind, assign, render, this, emit. simpl.
  by rewrite !emitted_nil.
Qed.

Lemma deliver_add_each_pending {B} (c : Card) config (K : list AddResult → M Card B) :
  _hass c = true → _config c = Some config →
  ∀ products outcomes results product,
  products !! length outcomes = Some product →
  deliver (bindR (add_each products results c) K) (alone outcomes)
  = (Pending (add_request c config product), c,
     concat (zip_with (λ p o, [Call (add_request c config p); Settle o])
                      products outcomes)
     ++ [Call (add_request c config product)]).
Proof.
  intros Hh Hc. induction products as [|p ps IH]; intros outcomes results product Hk;
    [done|].
  rewrite (add_each_cons c config) by done.
  destruct outcomes as [|o os]; simpl in *.
  - by injection Hk as ->.
  - rewrite bindR_emitted, emitted_nil. by rewrite (IH os _ product Hk).
Qed.

(** C1.  On a configured and attached card, [_addAllToCart] first sets the
    busy flag and renders, then, for the products of [_items] in order,
    issues one [add_to_cart] call with [quantity: 1] each, the next one only
    once the previous one has settled (after [k] outcomes exactly the call
    for product [k] is pending), records an entry per product under its
    display name whether the call succeeded or failed, and ends with a log
    of as many entries as there are products, in their order. *)
Theorem add_all_is_sequential (c : Card) (config : Obj) (outcomes : list Outcome) :
  _hass c = true →
  _config c = Some config →
  length outcomes = length (_items c) →
  let request (product : Obj) :=
    CallService (_domain c) (lit "add_to_cart")
      {[ lit "config_entry_id" := prop "config_entry_id" config;
         lit "product_id" := js_qq (prop "productId" product) (prop "id" product);
         lit "quantity" := JNum (int 1) ]} in
  let display (product : Obj) :=
    js_qq (prop "productName" product) (prop "name" product) in
  let entry (product : Obj) (o : Outcome) :=
    match o with
    | Resolved _ => mkAddResult (display product) true None
    | Rejected e => mkAddResult (display product) false (Some (prop "message" e))
    end in
  let exchange (product : Obj) (o : Outcome) := [Call (request product); Settle o] in
  let busy := set_addResults [] (set_addingAll true c) in
  let log := zip_with entry (_items c) outcomes in
  let final := set_addingAll false (set_addResults log busy) in
  deliver (_addAllToCart c) (alone outcomes)
  = (Returned (), final,
     Render (_render busy)
     :: concat (zip_with exchange (_items c) outcomes)
     ++ [Render (_render final)])
  ∧ (∀ k product,
       _items c !! k = Some product →
       deliver (_addAllToCart c) (alone (take k outcomes))
       = (Pending (request product), busy,
          Render (_render busy)
          :: concat (zip_with exchange (take k (_items c)) (take k outcomes))
          ++ [Call (request product)]))
  ∧ _addingAll busy = true
  ∧ _addResults final = log
  ∧ length log = length (_items c)
  ∧ name <$> log = display <$> _items c.
Proof.
  intros Hh Hc Hlen request display entry exchange busy log final.
  assert (Hhb : _hass busy = true) by done.
  assert (Hcb : _config busy = Some config) by done.
  split; [|split; [|split; [|split; [|split]]]].
  - rewrite add_all_unfold, deliver_emitted. fold busy.
    rewrite <- (app_nil_r (alone outcomes)).
    rewrite (deliver_add_each busy config) by done.
    reflexivity.
  - intros k product Hk.
    assert (Hkl : (k < length outcomes)%nat).
    { rewrite Hlen. by eapply lookup_lt_Some. }
    rewrite add_all_unfold, deliver_emitted. fold busy.
    rewrite (deliver_add_each_pending busy config _ Hhb Hcb _ _ _ product).
    + f_equal. f_equal. f_equal.
      rewrite <- (take_drop k (_items c)) at 1.
      rewrite zip_with_app_l, length_take_le by lia.
      rewrite take_take, Nat.min_id.
      rewrite (drop_ge (take k outcomes)) by (rewrite length_take; lia).
      rewrite zip_with_nil_r. by rewrite app_nil_r.
    + rewrite length_take_le by lia. exact Hk.
  - done.
  - done.
  - unfold log. rewrite length_zip_with. lia.
  - unfold log. clear -Hlen. revert outcomes Hlen.
    induction (_items c) as [|p ps IH]; intros [|o os] Hlen; try done.
    simpl. f_equal; [by destruct o|]. apply IH. simpl in Hlen. lia.
Qed.

Lemma add_all_A_B_C :
  let outcomes :=
    [Resolved JNull; Rejected (Error (lit "out of stock")); Resolved JNull] in
  let card := Examples.list_card [Examples.A; Examples.B; Examples.C] in
  (deliver (_addAllToCart card) (alone outcomes)).1.1 = Returned ()
  ∧ _addResults (deliver (_addAllToCart card) (alone outcomes)).1.2
    = [ mkAddResult (JStr (lit "A")) true None;
        mkAddResult (JStr (lit "B")) false (Some (JStr (lit "out of stock")));
        mkAddResult (JStr (lit "C")) true None ]
  ∧ length (calls (deliver (_addAllToCart card) (alone outcomes)).2) = 3%nat.
Proof.
  intros outcomes card.
  pose proof (add_all_is_sequential card Examples.list_config outcomes
                ltac:(vm_compute; reflexivity) ltac:(vm_compute; reflexivity)
                eq_refl) as H.
  cbv zeta in H. destruct H as [H _]. rewrite H.
  refine (conj _ (conj _ _)); vm_compute; reflexivity.
Defined.

(** *** A refresh that fails *)

Lemma js_or_truthy a b : truthy b = true → truthy (js_or a b) = true.
Proof. unfold js_or. by destruct (truthy a) eqn:E. Qed.

(** C2, as amended.  When the call of [_fetchList] is rejected, the item
    collection stays as it was, the error message is stored (the text
    "Failed to load shopping list" when the rejection has no message), the
    loading flag is cleared, and the body that is rendered is the error
    panel with the escaped message: by the precedence of [_renderBody] the
    rows of the items are not rendered while the error is set. *)
Theorem failed_refresh_keeps_items (c : Card) (config e : Obj) :
  _hass c = true →
  _config c = Some config →
  let request :=
    CallService (_domain c) (lit "get_shopping_list")
      {[ lit "config_entry_id" := prop "config_entry_id" config;
         lit "shopping_list_id" := prop "shopping_list_id" config ]} in
  let loading := set_addResults [] (set_error JNull (set_loading true c)) in
  let err := js_or (prop "message" e) (JStr (lit "Failed to load shopping list")) in
  let failed := set_loading false (set_error err loading) in
  deliver (_fetchList c) (alone [Rejected e])
  = (Returned (), failed,
     [Render (_render loading); Call request; Settle (Rejected e);
      Render (_render failed)])
  ∧ _items failed = _items c
  ∧ _loading failed = false
  ∧ _error failed = err
  ∧ (truthy (prop "message" e) = true → err = prop "message" e)
  ∧ _renderBody failed
    = html "<div class='state-box'><span class='error-icon'>⚠️</span><span>"
      ++ _escHtml err ++ html "</span></div>".
Proof.
  intros Hh Hc request loading err failed.
  split; [|split; [|split; [|split; [|split]]]]; try done.
  - destruct c. simpl in Hh, Hc. subst. reflexivity.
  - intros Ht. unfold err, js_or. by rewrite Ht.
  - unfold _renderBody.
    change (_loading failed) with false. change (_error failed) with err.
    unfold err. by rewrite js_or_truthy.
Qed.

Lemma failed_refresh_witness :
  let card := Examples.list_card [Examples.milk] in
  let run := deliver (_fetchList card) (alone [Rejected (Error (lit "boom"))]) in
  _items run.1.2 = [Examples.milk]
  ∧ _error run.1.2 = JStr (lit "boom")
  ∧ _renderBody run.1.2
    = html "<div class='state-box'><span class='error-icon'>⚠️</span><span>boom</span></div>".
Proof.
  intros card run.
  pose proof (failed_refresh_keeps_items card Examples.list_config
                (Error (lit "boom"))
                ltac:(vm_compute; reflexivity) ltac:(vm_compute; reflexivity))
    as H.
  cbv zeta in H. destruct H as (Hrun & _ & _ & _ & _ & Hbody).
  unfold run. rewrite Hrun. cbn [fst snd].
  refine (conj _ (conj _ _)); [vm_compute; reflexivity..|].
  rewrite Hbody. vm_compute. reflexivity.
Defined.

(** The claim as stated fails: after a failed refresh of a card that
    showed Milk, the markup holds the error and no item. *)
Lemma failed_refresh_hides_items :
  let card := Examples.list_card [Examples.milk] in
  let run := deliver (_fetchList card) (alone [Rejected (Error (lit "boom"))]) in
  occurs (lit "Milk") (_render card) = true
  ∧ _items run.1.2 = [Examples.milk]
  ∧ last (renders run.2) = Some (_render run.1.2)
  ∧ occurs (lit "boom") (_render run.1.2) = true
  ∧ occurs (lit "Milk") (_render run.1.2) = false
  ∧ occurs (html "<li class='item'>") (_render run.1.2) = false.
Proof. vm_compute. done. Qed.

End ListCardFacts.

(** ** The toast *)

Module ToastFacts.
Import Toast.

Lemma fire_cons els tm tms :
  fire els (tm :: tms) = fire (alter hide (target tm) els) tms.
Proof. reflexivity. Qed.

Lemma fire_untouched tms : ∀ els (i : nat),
  Forall (λ tm, target tm ≠ i) tms → fire els tms !! i = els !! i.
Proof.
  induction tms as [|tm tms IH]; intros els i Hf; [done|].
  inversion Hf; subst. rewrite fire_cons, IH by done.
  by rewrite list_lookup_alter_ne.
Qed.

Lemma fire_hidden tms : ∀ els (i : nat) el,
  els !! i = Some el →
  opacity el = lit "0" ∨ Exists (λ tm, target tm = i) tms →
  ∃ el', fire els tms !! i = Some el' ∧ opacity el' = lit "0"
         ∧ textContent el' = textContent el.
Proof.
  induction tms as [|tm tms IH]; intros els i el Hel Hor.
  - destruct Hor as [Ho|Hex]; [|by inversion Hex]. by exists el.
  - rewrite fire_cons. destruct (decide (target tm = i)) as [Heq|Hne]; [subst i|].
    + destruct (IH (alter hide (target tm) els) (target tm) (hide el)) as (el' & ? & ? & ?).
      * by rewrite list_lookup_alter_eq, Hel.
      * by left.
      * by exists el'.
    + apply IH.
      * by rewrite list_lookup_alter_ne.
      * destruct Hor as [?|Hex]; [by left|right]. by inversion Hex; subst.
Qed.

(** After [_showToast] on a mounted toast with no dismissal pending. *)
Section Shown.
Context (p : Page) (toast : nat) (msg : JsString) (isError : bool).
Hypothesis Hm : mounted p = Some toast.
Hypothesis Hlen : (toast < length (elements p))%nat.

Lemma shown_lookup :
  ∃ el, elements (_showToast msg isError p) !! toast = Some el
        ∧ opacity el = lit "1" ∧ textContent el = msg.
Proof.
  unfold _showToast. rewrite Hm. cbn [elements].
  destruct (lookup_lt_is_Some_2 _ _ Hlen) as [el0 Hel0].
  eexists. rewrite list_lookup_alter_eq, Hel0. simpl. done.
Qed.

Lemma shown_mounted : mounted (_showToast msg isError p) = Some toast.
Proof. unfold _showToast. by rewrite Hm. Qed.

Lemma shown_timers :
  timers (_showToast msg isError p) = timers p ++ [mkTimer (now p + 2500) toast].
Proof. unfold _showToast. by rewrite Hm. Qed.

Lemma shown_now : now (_showToast msg isError p) = now p.
Proof. unfold _showToast. by rewrite Hm. Qed.

Lemma shown_length :
  length (elements (_showToast msg isError p)) = length (elements p).
Proof. unfold _showToast. rewrite Hm. cbn [elements]. by rewrite length_alter. Qed.
End Shown.

(** The toast of [p] after [d] ms: showing as long as no dismissal that
    holds it is due. *)
Lemma advance_visible (p : Page) (toast : nat) (d : nat) el :
  mounted p = Some toast → elements p !! toast = Some el →
  opacity el = lit "1" →
  Forall (λ tm, target tm = toast → (now p + d < due tm)%nat) (timers p) →
  visible (advance d p) = true ∧ text (advance d p) = textContent el.
Proof.
  intros Hm Hel Hop Hf. unfold visible, text, advance. cbn [mounted elements].
  rewrite Hm, fire_untouched, Hel.
  - simpl. rewrite Hop. by rewrite bool_decide_eq_true_2.
  - apply Forall_forall. intros tm Hin.
    apply list_elem_of_filter in Hin as [Hdue Hin'].
    rewrite Forall_forall in Hf. intros Ht.
    specialize (Hf tm Hin' Ht). lia.
Qed.

Lemma advance_hidden (p : Page) (toast : nat) (d : nat) el :
  mounted p = Some toast → elements p !! toast = Some el →
  Exists (λ tm, target tm = toast ∧ (due tm ≤ now p + d)%nat) (timers p) →
  visible (advance d p) = false.
Proof.
  intros Hm Hel Hex. unfold visible, advance. cbn [mounted elements].
  rewrite Hm.
  destruct (fire_hidden (filter (λ tm, (due tm ≤ now p + d)%nat) (timers p))
              (elements p) toast el Hel) as (el' & -> & Hop & _).
  - right. apply Exists_exists in Hex as (tm & Hin & Ht & Hdue).
    apply Exists_exists. exists tm. split; [|done].
    by apply list_elem_of_filter.
  - rewrite Hop. done.
Qed.

Lemma fire_length tms : ∀ els, length (fire els tms) = length els.
Proof.
  induction tms as [|tm tms IH]; intros els; [done|].
  by rewrite fire_cons, IH, length_alter.
Qed.

Lemma visible_intro (p : Page) toast el :
  mounted p = Some toast → elements p !! toast = Some el →
  opacity el = lit "1" →
  visible p = true ∧ text p = textContent el.
Proof.
  intros Hm Hel Hop. unfold visible, text. rewrite Hm, Hel. simpl.
  by rewrite Hop, bool_decide_eq_true_2.
Qed.

(** C3, as amended.  [_showToast] makes the toast of the shadow root
    visible at once, and every call arms a dismissal 2.5 s later that no
    later call cancels.  So a toast shown while no dismissal is pending for
    its element stays visible for 2.5 s and is hidden from then on if
    nothing else happens; a second notification that arrives after [d] ms
    (less than 2.5 s) replaces the text, and is hidden when the first
    dismissal fires, 2.5 s - [d] after it was shown. *)
Theorem toast_dismissal (p : Page) (toast : nat) (msg1 msg2 : JsString)
    (isError1 isError2 : bool) (d : nat) :
  mounted p = Some toast →
  (toast < length (elements p))%nat →
  Forall (λ tm, target tm ≠ toast) (timers p) →
  (d < 2500)%nat →
  let p1 := _showToast msg1 isError1 p in
  let p2 := _showToast msg2 isError2 (advance d p1) in
  (visible p1 = true ∧ text p1 = msg1)
  ∧ (∀ d', (d' < 2500)%nat →
       visible (advance d' p1) = true ∧ text (advance d' p1) = msg1)
  ∧ (∀ d', (2500 ≤ d')%nat → visible (advance d' p1) = false)
  ∧ (visible p2 = true ∧ text p2 = msg2)
  ∧ (∀ d', (d' < 2500 - d)%nat →
       visible (advance d' p2) = true ∧ text (advance d' p2) = msg2)
  ∧ (∀ d', (2500 - d ≤ d')%nat → visible (advance d' p2) = false).
Proof.
  intros Hm Hlen Hfree Hd p1 p2.
  destruct (shown_lookup p toast msg1 isError1 Hm Hlen) as (el1 & Hel1 & Hop1 & Htx1).
  pose proof (shown_mounted p toast msg1 isError1 Hm) as Hm1.
  pose proof (shown_timers p toast msg1 isError1 Hm) as Ht1.
  pose proof (shown_now p toast msg1 isError1 Hm) as Hn1.
  fold p1 in Hel1, Hm1, Ht1, Hn1.
  assert (Hq : mounted (advance d p1) = Some toast) by done.
  assert (Hqlen : (toast < length (elements (advance d p1)))%nat).
  { unfold advance. cbn [elements]. rewrite fire_length. unfold p1.
    by rewrite (shown_length p toast msg1 isError1 Hm). }
  assert (Hqn : now (advance d p1) = (now p + d)%nat).
  { unfold advance. cbn [now]. by rewrite Hn1. }
  assert (Hqt : ∀ tm, tm ∈ timers (advance d p1) →
            target tm ≠ toast ∨ tm = mkTimer (now p + 2500) toast).
  { intros tm Hin. unfold advance in Hin. cbn [timers] in Hin.
    apply list_elem_of_filter in Hin as [_ Hin]. rewrite Ht1 in Hin.
    apply elem_of_app in Hin as [Hin|Hin].
    - left. rewrite Forall_forall in Hfree. by apply Hfree.
    - right. by apply list_elem_of_singleton in Hin. }
  assert (Hq1 : mkTimer (now p + 2500) toast ∈ timers (advance d p1)).
  { unfold advance. cbn [timers]. apply list_elem_of_filter. split.
    - cbn [due]. rewrite Hn1. lia.
    - rewrite Ht1. apply elem_of_app. right. by apply list_elem_of_singleton. }
  destruct (shown_lookup (advance d p1) toast msg2 isError2 Hq Hqlen)
    as (el2 & Hel2 & Hop2 & Htx2).
  pose proof (shown_mounted (advance d p1) toast msg2 isError2 Hq) as Hm2.
  pose proof (shown_timers (advance d p1) toast msg2 isError2 Hq) as Ht2.
  pose proof (shown_now (advance d p1) toast msg2 isError2 Hq) as Hn2.
  fold p2 in Hel2, Hm2, Ht2, Hn2. rewrite Hqn in Ht2, Hn2.
  split; [|split; [|split; [|split; [|split]]]].
  - rewrite <- Htx1. by apply (visible_intro p1 toast el1).
  - intros d' Hd'. rewrite <- Htx1. apply (advance_visible p1 toast d' el1); try done.
    rewrite Ht1. apply Forall_app. split.
    + eapply Forall_impl; [exact Hfree|]. by intros tm Hne Heq.
    + apply Forall_singleton. intros _. cbn [due]. lia.
  - intros d' Hd'. apply (advance_hidden p1 toast d' el1); try done.
    rewrite Ht1. apply Exists_app. right. apply Exists_cons. left.
    cbn [due target]. split; [done|lia].
  - rewrite <- Htx2. by apply (visible_intro p2 toast el2).
  - intros d' Hd'. rewrite <- Htx2. apply (advance_visible p2 toast d' el2); try done.
    rewrite Ht2. apply Forall_app. split.
    + apply Forall_forall. intros tm Hin Heq.
      destruct (Hqt tm Hin) as [Hne| ->]; [done|]. cbn [due]. lia.
    + apply Forall_singleton. intros _. cbn [due]. lia.
  - intros d' Hd'. apply (advance_hidden p2 toast d' el2); try done.
    rewrite Ht2. apply Exists_app. left. apply Exists_exists.
    exists (mkTimer (now p + 2500) toast). split; [done|].
    cbn [due target]. split; [done|lia].
Qed.

Lemma toast_dismissal_witness :
  let p1 := _showToast (lit "added") false (rendered initial) in
  let p2 := _showToast (lit "failed") true (advance 1000 p1) in
  visible (advance 2499 p1) = true
  ∧ visible (advance 2500 p1) = false
  ∧ text p2 = lit "failed"
  ∧ visible (advance 1499 p2) = true
  ∧ visible (advance 1500 p2) = false.
Proof.
  pose proof (toast_dismissal (rendered initial) 0 (lit "added") (lit "failed")
                false true 1000 eq_refl ltac:(cbn; lia) ltac:(constructor)
                ltac:(lia)) as H.
  cbv zeta in H. destruct H as (_ & Hv1 & Hh1 & (_ & Ht2) & Hv2 & Hh2).
  intros p1 p2.
  refine (conj _ (conj _ (conj _ (conj _ _)))).
  - apply (Hv1 2499%nat). lia.
  - apply (Hh1 2500%nat). lia.
  - exact Ht2.
  - apply (Hv2 1499%nat). lia.
  - apply (Hh2 1500%nat). lia.
Defined.

(** The claim as stated fails: the second toast, shown at 1000 ms, is
    hidden 1500 ms later. *)
Lemma second_toast_cut_short :
  let p1 := _showToast (lit "added") false (rendered initial) in
  let p2 := _showToast (lit "failed") true (advance 1000 p1) in
  now p2 = 1000%nat
  ∧ visible p2 = true
  ∧ (1500 < 2500)%nat
  ∧ visible (advance 1500 p2) = false.
Proof. vm_compute. repeat split; lia. Qed.

End ToastFacts.

(** ** The cart card *)

Module CartCardFacts.
Import CartCard.

Lemma render_never P c : Never P (render c).
Proof. unfold render. unfold_bind. never. Qed.

Lemma fetchImages_never name productIds c :
  Never (is_service name) (_fetchImages productIds c).
Proof. unfold _fetchImages. unfold_bind. never. Qed.

Lemma callService_never name service data c :
  lit service ≠ lit name →
  Never (is_service name) (callService service data c).
Proof.
  intros Hne. unfold callService. unfold_bind. never.
  apply Never_await. simpl. by rewrite bool_decide_eq_false_2.
Qed.

Lemma bind_render_eq {A} (f : () → M Card A) c :
  bind render f c = emitted [Render (_render c)] (f () c).
Proof. reflexivity. Qed.

Lemma bind_callService_eq {A} service data (f : Outcome → M Card A) c config :
  _hass c = true → _config c = Some config →
  bind (callService service data) f c
  = Susp (CallService (_domain c) (lit service) (data config)) c []
      (λ o c', emitted [] (f o c')).
Proof. intros Hh Hc. destruct c. simpl in Hh, Hc. subst. reflexivity. Qed.

(** What follows the [get_cart_content] call in [_fetchCart]. *)
Lemma fetchCart_never name c :
  lit "get_cart_content" ≠ lit name → Never (is_service name) (_fetchCart c).
Proof.
  intros Hne. unfold _fetchCart. unfold_bind.
  repeat first
    [ match goal with
      | |- Never _ (render _) => apply render_never
      | |- Never _ (_fetchImages _ _) => apply fetchImages_never
      | |- Never _ (callService _ _ _) => by apply callService_never
      end
    | never_step ].
Qed.

Ltac never_cart :=
  repeat first
    [ match goal with
      | |- Never _ (render _) => apply render_never
      | |- Never _ (_fetchImages _ _) => apply fetchImages_never
      | |- Never _ (callService _ _ _) => by apply callService_never
      | |- Never _ (_fetchCart _) => by apply fetchCart_never
      end
    | never_step ].

Lemma fetchCart_idle c :
  _hass c = false ∨ _loading c = true → _fetchCart c = Done () c [].
Proof.
  intros H. unfold _fetchCart. unfold_bind. rewrite bind_this_eq.
  by destruct H as [-> | ->]; [|rewrite orb_true_r].
Qed.

Lemma fetchCart_start c config :
  _hass c = true → _config c = Some config → _loading c = false →
  let loading := set_error JNull (set_loading true c) in
  ∃ k,
    _fetchCart c
    = Susp (CallService (_domain c) (lit "get_cart_content")
              {[ lit "config_entry_id" := prop "config_entry_id" config ]})
           loading [Render (_render loading)] k
    ∧ ∀ o c', Never (is_service "get_cart_content") (k o c').
Proof.
  intros Hh Hc Hl loading. unfold _fetchCart. unfold_bind.
  rewrite bind_this_eq, Hh, Hl. cbn [negb orb].
  rewrite !bind_assign_eq, bind_render_eq.
  rewrite (bind_callService_eq _ _ _ _ config) by done.
  cbn [emitted app]. eexists. split; [reflexivity|].
  intros o c'. apply Never_emitted; [done|]. never_cart.
Qed.

Lemma removeFromCart_start cartItemId c config :
  _hass c = true → _config c = Some config →
  _removeFromCart cartItemId c
  = Susp (CallService (_domain c) (lit "delete_from_cart")
            {[ lit "config_entry_id" := prop "config_entry_id" config;
               lit "order_field_id" := cartItemId ]})
         c []
         (λ o c',
            emitted []
              (match o with
               | Resolved _ => _fetchCart
               | Rejected e =>
                 bind (assign (set_error
                         (JStr (lit "Failed to remove item: "
                                ++ to_string (prop "message" e)))))
                      (λ _, render)
               end c')).
Proof.
  intros Hh Hc. unfold _removeFromCart. unfold_bind.
  by rewrite (bind_callService_eq _ _ _ _ config).
Qed.

(** C6.  On a configured and attached card, [_removeFromCart] issues
    exactly one [delete_from_cart] call, whose [order_field_id] is the line
    id.  When the call succeeds, the method runs [_fetchCart], whose guard
    decides what follows: with no fetch in flight at that moment, exactly
    one [get_cart_content] call; with a fetch in flight, nothing at all:
    the method returns without a request, an assignment or a render.  When
    the call fails there is no further request: the error is stored and
    the card is rendered with its lines untouched. *)
Theorem remove_line (cartItemId : JsVal) (c : Card) (config : Obj) :
  _hass c = true →
  _config c = Some config →
  let remove :=
    CallService (_domain c) (lit "delete_from_cart")
      {[ lit "config_entry_id" := prop "config_entry_id" config;
         lit "order_field_id" := cartItemId ]} in
  (∀ steps,
     filter (λ rq, is_service "delete_from_cart" rq = true)
            (calls (deliver (_removeFromCart cartItemId c) steps).2)
     = [remove])
  ∧ (∀ others result config' steps,
       _hass (others c) = true →
       _config (others c) = Some config' →
       _loading (others c) = false →
       filter (λ rq, is_service "get_cart_content" rq = true)
              (calls (deliver (_removeFromCart cartItemId c)
                              ((others, Resolved result) :: steps)).2)
       = [CallService (_domain (others c)) (lit "get_cart_content")
            {[ lit "config_entry_id" := prop "config_entry_id" config' ]}])
  ∧ (∀ others result steps,
       _loading (others c) = true →
       deliver (_removeFromCart cartItemId c) ((others, Resolved result) :: steps)
       = (Returned (), others c, [Call remove; Settle (Resolved result)]))
  ∧ (∀ others e steps,
       let failed :=
         set_error (JStr (lit "Failed to remove item: "
                          ++ to_string (prop "message" e))) (others c) in
       deliver (_removeFromCart cartItemId c) ((others, Rejected e) :: steps)
       = (Returned (), failed,
          [Call remove; Settle (Rejected e); Render (_render failed)])
       ∧ _products failed = _products (others c)
       ∧ _error failed
         = JStr (lit "Failed to remove item: " ++ to_string (prop "message" e))).
Proof.
  intros Hh Hc remove.
  rewrite (removeFromCart_start cartItemId c config Hh Hc). fold remove.
  split; [|split; [|split]].
  - intros steps. apply once_deliver; [done|done|].
    intros o c'. apply Never_emitted; [done|]. destruct o.
    + by apply fetchCart_never.
    + unfold_bind. never_cart.
  - intros others result config' steps Hh' Hc' Hl'.
    destruct (fetchCart_start (others c) config' Hh' Hc' Hl') as (k & Hk & Hnever).
    cbn [deliver]. rewrite emitted_nil, Hk.
    match goal with
    | |- context [deliver (Susp ?rq ?s ?out k) steps] =>
      pose proof (once_deliver (is_service "get_cart_content") rq s out k steps
                    eq_refl eq_refl Hnever) as Honce
    end.
    destruct (deliver (Susp _ _ _ k) steps) as [[st c''] tr].
    cbn [snd app]. cbn [snd] in Honce.
    change (calls (Call remove :: Settle (Resolved result) :: tr))
      with (remove :: calls tr).
    rewrite filter_cons_False; [exact Honce|]. by vm_compute.
  - intros others result steps Hl.
    cbn [deliver]. rewrite emitted_nil.
    by rewrite (fetchCart_idle (others c)) by (by right).
  - intros others e steps failed. split; [reflexivity|done].
Qed.

Lemma remove_line_witness :
  let card := Examples.cart_card in
  let emptied := JObj {[ lit "response" := JObj {[ lit "products" := JArr [] ]} ]} in
  let line := JStr (lit "1") in
  filter (λ rq, is_service "get_cart_content" rq = true)
         (calls (deliver (_removeFromCart line card)
                         [(id, Resolved JNull); (id, Resolved emptied)]).2)
  = [CallService (JStr (lit "rohlikcz2")) (lit "get_cart_content")
       {[ lit "config_entry_id" := JStr (lit "x") ]}]
  ∧ (deliver (_removeFromCart line card) [(id, Rejected (Error (lit "gone")))]).1
    = (Returned (), set_error (JStr (lit "Failed to remove item: gone")) card).
Proof.
  intros card emptied line.
  pose proof (remove_line line card Examples.cart_config
                ltac:(vm_compute; reflexivity) ltac:(vm_compute; reflexivity))
    as H.
  cbv zeta in H. destruct H as (_ & Hok & _ & Hfail). split.
  - rewrite (Hok id JNull Examples.cart_config [(id, Resolved emptied)]);
      vm_compute; reflexivity.
  - destruct (Hfail id (Error (lit "gone")) []) as (-> & _).
    vm_compute. reflexivity.
Defined.

(** When the user presses Refresh while the removal is under way, the
    fetch of the refresh is in flight when the removal succeeds: the guard
    of [_fetchCart] makes the refresh after the removal a no-op. *)
Example remove_while_refreshing :
  let card := Examples.cart_card in
  let refresh_pressed (c : Card) := (deliver (refresh_click c) []).1.2 in
  let run :=
    deliver (_removeFromCart (JStr (lit "1")) card)
            [(refresh_pressed, Resolved JNull)] in
  _loading (refresh_pressed card) = true
  ∧ run.1.1 = Returned ()
  ∧ length (calls run.2) = 1%nat
  ∧ renders run.2 = [].
Proof. vm_compute. done. Qed.

(** Two lines are removed in quick succession.  When the second removal
    succeeds, the refresh that followed the first one is still waiting for
    its answer: the second removal is followed by no [get_cart_content]
    call and no render, and the cart that the pending refresh brings was
    requested before the second line was gone. *)
Lemma removal_without_refresh :
  let card := Examples.cart_card in
  let first_removed (c : Card) :=
    (deliver (_removeFromCart (JStr (lit "1")) c) [(id, Resolved JNull)]).1.2 in
  let run :=
    deliver (_removeFromCart (JStr (lit "2")) card)
            [(first_removed, Resolved JNull)] in
  _loading (first_removed card) = true
  ∧ run.1.1 = Returned ()
  ∧ filter (λ rq, is_service "get_cart_content" rq = true) (calls run.2) = []
  ∧ renders run.2 = []
  ∧ run.1.2 = first_removed card.
Proof.
  vm_compute.
  exact (conj eq_refl (conj eq_refl (conj eq_refl (conj eq_refl eq_refl)))).
Qed.










Ltac flag_side :=
  unfold flag_is, same_flag in *; simpl in *;
  first [ assumption | congruence | apply lookup_insert_eq ].

Lemma render_keeps rely W (F : Card → Prop) c :
  F c → Keeps rely W F (render c).
Proof.
  intros HF. unfold render. unfold_bind.
  apply (Keeps_bind _ _ _ (λ c', c' = c)); [by constructor|].
  intros ? ? ->. by apply Keeps_emit.
Qed.

Ltac keeps_cart :=
  repeat first
    [ match goal with
      | |- Keeps _ _ _ (render _) => apply render_keeps; flag_side
      | |- Keeps _ _ _ (callService _ _ _) => unfold callService; unfold_bind
      | |- Keeps _ _ _ (_fetchImages _ _) => unfold _fetchImages; unfold_bind
      | |- Keeps _ _ _ (_fetchCart _) => unfold _fetchCart; unfold_bind
      end
    | keeps_step flag_side ].

Lemma fetchCart_keeps k b c :
  flag_is k b c → Keeps (same_flag k) (flag_is k b) (flag_is k b) (_fetchCart c).
Proof. intros H. keeps_cart. Qed.

Lemma addToCart_keeps productId c :
  Keeps (same_flag (key productId)) (flag_is (key productId) true)
        (flag_is (key productId) false) (_addToCart productId c).
Proof.
  unfold _addToCart. unfold_bind.
  apply (Keeps_bind _ _ _ (λ c', c' = c)); [by constructor|]. intros ? ? ->.
  apply (Keeps_bind _ _ _ (flag_is (key productId) true)).
  { keeps_cart. }
  intros _ c1 H1.
  apply (Keeps_bind _ _ _ (flag_is (key productId) true)); [keeps_cart|].
  intros _ c2 H2.
  apply (Keeps_bind _ _ _ (flag_is (key productId) true)); [keeps_cart|].
  intros o c3 H3.
  apply (Keeps_bind _ _ _ (flag_is (key productId) true)).
  { destruct o; unfold_bind; keeps_cart. }
  intros _ c4 H4.
  apply (Keeps_bind _ _ _ (λ c', flag_is (key productId) true c')); [keeps_cart|].
  intros c5 c6 H6.
  apply (Keeps_bind _ _ _ (flag_is (key productId) false)); [keeps_cart|].
  intros _ c7 H7. keeps_cart.
Qed.

Lemma addToCart_start productId c config :
  _hass c = true → _config c = Some config →
  let started :=
    set_addingToCart (<[ key productId := true ]> (_addingToCart c)) c in
  _addToCart productId c
  = Susp (CallService (_domain c) (lit "add_to_cart")
            {[ lit "config_entry_id" := prop "config_entry_id" config;
               lit "product_id" := productId;
               lit "quantity" := JNum (int 1) ]})
         started [Render (_render started)]
         (λ o c',
            emitted []
              (bind
                 (match o with
                  | Resolved _ => bind (assign (set_loaded false)) (λ _, _fetchCart)
                  | Rejected e =>
                    assign (set_error
                      (JStr (lit "Failed to add item: "
                             ++ to_string (prop "message" e))))
                  end)
                 (λ _, bind this (λ c,
                    bind (assign (set_addingToCart
                            (<[ key productId := false ]> (_addingToCart c))))
                         (λ _, render)))
                 c')).
Proof.
  intros Hh Hc started. unfold _addToCart. unfold_bind.
  rewrite bind_this_eq, bind_assign_eq, bind_render_eq.
  rewrite (bind_callService_eq _ _ _ _ config) by done.
  reflexivity.
Qed.

Lemma failed_to_add_nonempty (x : JsString) :
  truthy (JStr (lit "Failed to add item: " ++ x)) = true.
Proof.
  unfold truthy. rewrite bool_decide_eq_false_2; [done|].
  intros H%(f_equal length). rewrite length_app in H.
  by vm_compute (length (lit _)) in H.
Qed.

Lemma addToCart_refetch productId c' config' :
  _hass c' = true → _config c' = Some config' → _loading c' = false →
  let refetching := set_error JNull (set_loading true (set_loaded false c')) in
  ∃ k,
    bind (bind (assign (set_loaded false)) (λ _, _fetchCart))
         (λ _, bind this (λ c,
            bind (assign (set_addingToCart
                    (<[ key productId := false ]> (_addingToCart c))))
                 (λ _, render)))
         c'
    = Susp (CallService (_domain c') (lit "get_cart_content")
              {[ lit "config_entry_id" := prop "config_entry_id" config' ]})
           refetching [Render (_render refetching)] k
    ∧ ∀ o s', Never (is_service "get_cart_content") (k o s').
Proof.
  intros Hh' Hc' Hl' refetching.
  destruct (fetchCart_start (set_loaded false c') config' Hh' Hc' Hl')
    as (k & Hk & Hnever).
  unfold bind at 1. rewrite bind_assign_eq, emitted_nil, Hk. cbn [bindR].
  eexists. split; [reflexivity|].
  intros o s'. apply Never_bindR; [apply Hnever|].
  intros _ s''. never_cart.
Qed.

(** C9.  On a configured and attached card, [_addToCart] sets the flag of
    the product, renders and issues one [add_to_cart] call.  When the call
    fails, the message goes into [_error], no [get_cart_content] call is
    made, and the body that is rendered is the error panel, unless a fetch
    is in flight: then it is the loading panel.  When it succeeds,
    [_loaded] is reset and [_fetchCart] runs, whose guard decides what
    follows: with no fetch in flight at that moment, exactly one
    [get_cart_content] call; with a fetch in flight, no request at all:
    the flag is cleared, the card is rendered and the lines stay as they
    were.  While the method is suspended the flag of the product is
    [true], and when it returns the flag is [false], whatever the
    outcomes, as long as no other handler touches that flag; the method
    never throws. *)
Theorem add_from_search (productId : JsVal) (c : Card) (config : Obj) :
  _hass c = true →
  _config c = Some config →
  let flag (c : Card) := _addingToCart c !! key productId in
  let started :=
    set_addingToCart (<[ key productId := true ]> (_addingToCart c)) c in
  let add :=
    CallService (_domain c) (lit "add_to_cart")
      {[ lit "config_entry_id" := prop "config_entry_id" config;
         lit "product_id" := productId;
         lit "quantity" := JNum (int 1) ]} in
  deliver (_addToCart productId c) []
    = (Pending add, started, [Render (_render started); Call add])
  ∧ (∀ others e steps,
       let c' := others started in
       let message :=
         lit "Failed to add item: " ++ to_string (prop "message" e) in
       let failed :=
         set_addingToCart (<[ key productId := false ]> (_addingToCart c'))
           (set_error (JStr message) c') in
       deliver (_addToCart productId c) ((others, Rejected e) :: steps)
       = (Returned (), failed,
          [Render (_render started); Call add; Settle (Rejected e);
           Render (_render failed)])
       ∧ _error failed = JStr message
       ∧ (_loading c' = false →
          body failed = html "<div class='error'>" ++ message ++ html "</div>")
       ∧ (_loading c' = true →
          body failed = html "<div class='loading'>Loading cart‚Ä¶</div>"))
  ∧ (∀ others result config' steps,
       let c' := others started in
       let refetching := set_error JNull (set_loading true (set_loaded false c')) in
       let refetch :=
         CallService (_domain c') (lit "get_cart_content")
           {[ lit "config_entry_id" := prop "config_entry_id" config' ]} in
       _hass c' = true → _config c' = Some config' → _loading c' = false →
       (∃ st c'' tr,
          deliver (_addToCart productId c) ((others, Resolved result) :: steps)
          = (st, c'',
             Render (_render started) :: Call add :: Settle (Resolved result)
             :: Render (_render refetching) :: Call refetch :: tr))
       ∧ _loaded refetching = false
       ∧ filter (λ rq, is_service "get_cart_content" rq = true)
                (calls (deliver (_addToCart productId c)
                                ((others, Resolved result) :: steps)).2)
         = [refetch])
  ∧ (∀ others result steps,
       let c' := others started in
       let skipped :=
         set_addingToCart (<[ key productId := false ]> (_addingToCart c'))
           (set_loaded false c') in
       _loading c' = true →
       deliver (_addToCart productId c) ((others, Resolved result) :: steps)
       = (Returned (), skipped,
          [Render (_render started); Call add; Settle (Resolved result);
           Render (_render skipped)])
       ∧ _loaded skipped = false
       ∧ _products skipped = _products c')
  ∧ (∀ steps,
       Forall (λ step, ∀ c', flag (step.1 c') = flag c') steps →
       match deliver (_addToCart productId c) steps with
       | (Pending _, c', _) => flag c' = Some true
       | (Returned _, c', _) => flag c' = Some false
       | (Thrown _, _, _) => False
       end).
Proof.
  intros Hh Hc flag started add.
  split; [|split; [|split; [|split]]].
  - rewrite (addToCart_start productId c config Hh Hc). reflexivity.
  - intros others e steps c' message failed.
    rewrite (addToCart_start productId c config Hh Hc).
    split; [reflexivity|split; [done|split]].
    + intros Hl. unfold body.
      change (_loading failed) with (_loading c'). rewrite Hl.
      change (_error failed) with (JStr message).
      unfold message at 1. by rewrite failed_to_add_nonempty.
    + intros Hl. unfold body.
      change (_loading failed) with (_loading c'). by rewrite Hl.
  - intros others result config' steps c' refetching refetch Hh' Hc' Hl'.
    rewrite (addToCart_start productId c config Hh Hc). fold started add.
    destruct (addToCart_refetch productId c' config' Hh' Hc' Hl')
      as (k & Hk & Hnever).
    cbn [deliver]. fold c'. rewrite emitted_nil, Hk. fold refetching refetch.
    split; [|split; [done|]].
    + destruct steps as [|[others' o'] steps]; cbn [deliver].
      * by eexists _, _, [].
      * destruct (deliver _ steps) as [[st c''] tr]. by eexists _, _, _.
    + match goal with
      | |- context [deliver (Susp ?rq ?s ?out k) steps] =>
        pose proof (once_deliver (is_service "get_cart_content") rq s out k steps
                      eq_refl eq_refl Hnever) as Honce;
        destruct (deliver (Susp rq s out k) steps) as [[st c''] tr]
      end.
      cbn [snd app] in *.
      change (calls (Render (_render started) :: Call add
                     :: Settle (Resolved result) :: tr))
        with (add :: calls tr).
      rewrite filter_cons_False; [exact Honce|]. by vm_compute.
  - intros others result steps c' skipped Hl.
    rewrite (addToCart_start productId c config Hh Hc). fold started add.
    cbn [deliver]. fold c'. rewrite emitted_nil.
    unfold bind at 1. unfold bind at 1. unfold assign at 1. cbn [bindR].
    rewrite !emitted_nil.
    rewrite (fetchCart_idle (set_loaded false c')) by (by right).
    split; [reflexivity|]. split; reflexivity.
  - intros steps Hsteps.
    apply (Keeps_deliver _ _ _ _ (addToCart_keeps productId c) steps Hsteps).
Qed.

Lemma add_from_search_witness :
  let card := Examples.cart_card in
  let eleven := JNum (int 11) in
  let run := deliver (_addToCart eleven card) [(id, Rejected (Error (lit "sold out")))] in
  run.1.1 = Returned ()
  ∧ _error run.1.2 = JStr (lit "Failed to add item: sold out")
  ∧ body run.1.2 = html "<div class='error'>Failed to add item: sold out</div>"
  ∧ _addingToCart run.1.2 !! lit "11" = Some false.
Proof.
  intros card eleven run.
  pose proof (add_from_search eleven card Examples.cart_config
                ltac:(vm_compute; reflexivity) ltac:(vm_compute; reflexivity))
    as H.
  cbv zeta in H. destruct H as (_ & Hfail & _ & _ & Hflag).
  destruct (Hfail id (Error (lit "sold out")) []) as (Hrun & Herr & Hbody & _).
  specialize (Hflag [(id, Rejected (Error (lit "sold out")))]
                ltac:(by repeat constructor)).
  unfold run. rewrite Hrun in Hflag |- *. cbn [fst snd].
  refine (conj _ (conj _ (conj _ _))).
  - reflexivity.
  - rewrite Herr. vm_compute. reflexivity.
  - rewrite Hbody by (vm_compute; reflexivity). vm_compute. reflexivity.
  - exact Hflag.
Defined.

(** The user presses [+] on a search result and then Refresh before the
    [add_to_cart] call has settled.  When it succeeds, the fetch of the
    refresh is in flight: the add is followed by no [get_cart_content]
    call, and the cart that the pending fetch brings was requested before
    the product was added. *)
Lemma add_without_refetch :
  let card := Examples.cart_card in
  let refresh_pressed (c : Card) := (deliver (refresh_click c) []).1.2 in
  let run :=
    deliver (_addToCart (JNum (int 11)) card) [(refresh_pressed, Resolved JNull)] in
  run.1.1 = Returned ()
  ∧ filter (λ rq, is_service "get_cart_content" rq = true) (calls run.2) = []
  ∧ length (calls run.2) = 1%nat
  ∧ _loaded run.1.2 = false
  ∧ _products run.1.2 = _products card.
Proof.
  vm_compute.
  exact (conj eq_refl (conj eq_refl (conj eq_refl (conj eq_refl eq_refl)))).
Qed.

End CartCardFacts.

(** ** Both cards *)

Lemma prop_delete (k : string) (o : Obj) : prop k (delete (lit k) o) = JUndefined.
Proof. unfold prop. by rewrite lookup_delete_eq. Qed.

(** C4.  [setConfig] of either card throws, without rendering or fetching
    and without touching the card, for every configuration in which
    [config_entry_id] is missing or empty (falsy), and that of the list
    card also when [shopping_list_id] is; with the required fields present
    it stores the configuration (and the domain) and renders. *)
Theorem configure_validates (config : Obj) (lc : ListCard.Card) (cc : CartCard.Card) :
  let connection := prop "config_entry_id" config in
  let list := prop "shopping_list_id" config in
  let domain := js_or (prop "domain" config) (JStr (lit "rohlikcz2")) in
  let lc' := ListCard.set_domain domain (ListCard.set_config (Some config) lc) in
  let cc' := CartCard.set_domain domain (CartCard.set_config (Some config) cc) in
  (ListCard.setConfig (delete (lit "config_entry_id") config) lc
     = Threw (Error (lit "config_entry_id is required")) lc []
   ∧ CartCard.setConfig (delete (lit "config_entry_id") config) cc
     = Threw (Error (lit "config_entry_id is required")) cc [])
  ∧ (truthy connection = false →
     ListCard.setConfig config lc
       = Threw (Error (lit "config_entry_id is required")) lc []
     ∧ CartCard.setConfig config cc
       = Threw (Error (lit "config_entry_id is required")) cc [])
  ∧ (truthy connection = true → truthy list = false →
     ListCard.setConfig config lc
       = Threw (Error (lit "shopping_list_id is required")) lc [])
  ∧ (truthy connection = true → truthy list = true →
     ListCard.setConfig config lc = Done () lc' [Render (ListCard._render lc')]
     ∧ ListCard._config lc' = Some config)
  ∧ (truthy connection = true →
     CartCard.setConfig config cc = Done () cc' [Render (CartCard._render cc')]
     ∧ CartCard._config cc' = Some config).
Proof.
  intros connection list domain lc' cc'.
  split; [|split; [|split; [|split]]].
  - unfold ListCard.setConfig, CartCard.setConfig.
    rewrite !prop_delete. done.
  - intros H. unfold ListCard.setConfig, CartCard.setConfig.
    fold connection. rewrite H. done.
  - intros H1 H2. unfold ListCard.setConfig. fold connection list.
    rewrite H1, H2. done.
  - intros H1 H2. unfold ListCard.setConfig. fold connection list.
    rewrite H1, H2. done.
  - intros H1. unfold CartCard.setConfig. fold connection.
    rewrite H1. done.
Qed.

Lemma configure_validates_witness :
  ListCard.setConfig ListCard.getStubConfig ListCard.constructor
  = Threw (Error (lit "config_entry_id is required")) ListCard.constructor []
  ∧ ListCard.setConfig Examples.cart_config ListCard.constructor
    = Threw (Error (lit "shopping_list_id is required")) ListCard.constructor []
  ∧ (∃ c, ListCard.setConfig Examples.list_config ListCard.constructor
          = Done () c [Render (ListCard._render c)]
          ∧ ListCard._config c = Some Examples.list_config)
  ∧ (∃ c, CartCard.setConfig Examples.cart_config CartCard.constructor
          = Done () c [Render (CartCard._render c)]
          ∧ CartCard._config c = Some Examples.cart_config).
Proof.
  pose proof (configure_validates ListCard.getStubConfig ListCard.constructor
                CartCard.constructor) as H1.
  pose proof (configure_validates Examples.cart_config ListCard.constructor
                CartCard.constructor) as H2.
  pose proof (configure_validates Examples.list_config ListCard.constructor
                CartCard.constructor) as H3.
  cbv zeta in H1, H2, H3.
  destruct H1 as (_ & H1 & _). destruct H2 as (_ & _ & H2 & _ & H2').
  destruct H3 as (_ & _ & _ & H3 & _).
  refine (conj _ (conj _ (conj _ _))).
  - apply H1. vm_compute. reflexivity.
  - apply H2; vm_compute; reflexivity.
  - eexists. apply H3; vm_compute; reflexivity.
  - eexists. apply H2'. vm_compute. reflexivity.
Defined.

Lemma ceil_half (n : Z) :
  let k := Qceiling (inject_Z n / 2) in (2 * (k - 1) < n ≤ 2 * k)%Z.
Proof.
  unfold Qceiling, Qfloor. cbn.
  change (Z.pos (1 * 2)) with 2%Z. rewrite Z.mul_1_r.
  pose proof (Z.div_mod (- n) 2 ltac:(lia)).
  pose proof (Z.mod_pos_bound (- n) 2 ltac:(lia)).
  lia.
Qed.

(** C8, as amended.  The shopping-list card offers the dashboard a size
    hint, and for a card with [n] items the hint is
    [max(1, ceil(n / 2) + 2)], where [ceil(n / 2)] is the integer [k] with
    [2 (k - 1) < n <= 2 k].  The cart card offers none. *)
Theorem list_card_size_hint (c : ListCard.Card) :
  Lovelace.getCardSize Lovelace.RohlikczShoppingListCard = Some ListCard.getCardSize
  ∧ ∃ k : Z,
      (2 * (k - 1) < Z.of_nat (length (ListCard._items c)) ≤ 2 * k)%Z
      ∧ ListCard.getCardSize c = Z.max 1 (k + 2).
Proof.
  split; [done|].
  exists (Qceiling (inject_Z (Z.of_nat (length (ListCard._items c))) / 2)).
  split; [apply ceil_half | done].
Qed.

(** The claim as stated fails: the cart card defines no [getCardSize]. *)
Lemma cart_card_has_no_size_hint :
  Lovelace.getCardSize Lovelace.RohlikczCartCard = None.
Proof. reflexivity. Qed.

(** * Further properties *)

#[local] Close Scope Q_scope.
Import Requests Entities.

(** ** More on runs *)

Section Runs.
Context {S : Type}.



(** A method all of whose requests satisfy [Q], in every run. *)
Lemma Never_calls (Q : Request → bool) {A} (r : Res S A) :
  Never (λ rq, negb (Q rq)) r →
  ∀ steps, Forall (λ rq, Q rq = true) (calls (deliver r steps).2).
Proof.
  induction 1 as [a s o Hc|e s o Hc|rq s o k Hc HP Hk IH]; intros steps; simpl.
  - rewrite Hc. constructor.
  - rewrite Hc. constructor.
  - apply negb_false_iff in HP.
    destruct steps as [|[others o'] steps].
    + simpl. rewrite calls_app, Hc. simpl. by repeat constructor.
    + specialize (IH o' (others s) steps).
      destruct (deliver (k o' (others s)) steps) as [[st s'] tr]. simpl in *.
      rewrite calls_app, Hc. simpl. by constructor.
Qed.

(** The first steps of a method that is itself the first part of a
    sequence. *)
Lemma bind_bind_assign_eq {A B} g (f : () → M S A) (h : A → M S B) s :
  bind (bind (assign g) f) h s = bind (f ()) h (g s).
Proof. unfold bind. simpl. by rewrite emitted_nil. Qed.

End Runs.

(** ** More on strings *)

Section Strings.
#[local] Open Scope N_scope.

Lemma starts_with_app (a b : JsString) : starts_with a (a ++ b) = true.
Proof.
  induction a as [|x a IH]; [done|].
  simpl. by rewrite N.eqb_refl, IH.
Qed.

Lemma starts_with_prefix (n h b : JsString) :
  starts_with n h = true → starts_with n (h ++ b) = true.
Proof.
  revert h. induction n as [|x n IH]; intros [|y h] H; simpl in *; try done.
  apply andb_true_iff in H as [-> H]. simpl. by apply IH.
Qed.

Lemma occurs_here (n rest : JsString) : occurs n (n ++ rest) = true.
Proof.
  destruct n as [|x n]; [by destruct rest|].
  change ((x :: n) ++ rest) with (x :: (n ++ rest)).
  cbn [occurs starts_with]. by rewrite N.eqb_refl, starts_with_app.
Qed.

Lemma occurs_refl (n : JsString) : occurs n n = true.
Proof. rewrite <- (app_nil_r n) at 2. apply occurs_here. Qed.

Lemma occurs_after (a n h : JsString) : occurs n h = true → occurs n (a ++ h) = true.
Proof.
  intros H. induction a as [|x a IH]; [done|].
  cbn [app occurs]. rewrite IH. apply orb_true_r.
Qed.

Lemma occurs_before (n h b : JsString) : occurs n h = true → occurs n (h ++ b) = true.
Proof.
  induction h as [|x h IH]; intros H.
  - simpl in H. rewrite orb_false_r in H. destruct n; [by destruct b|done].
  - cbn [occurs] in H. apply orb_true_iff in H as [H|H].
    + change ((x :: h) ++ b) with (x :: (h ++ b)). cbn [occurs].
      change (x :: (h ++ b)) with ((x :: h) ++ b).
      by rewrite starts_with_prefix.
    + cbn [app occurs]. rewrite IH by done. apply orb_true_r.
Qed.

Lemma occurs_concat (n x : JsString) (l : list JsString) :
  x ∈ l → occurs n x = true → occurs n (concat l) = true.
Proof.
  intros Hin Hx. induction Hin as [x l|x y l Hin IH]; simpl.
  - by apply occurs_before.
  - by apply occurs_after, IH.
Qed.

(** A text [q] between two pieces of the template, with the end [a] of
    the piece before it and the start [b] of the piece after it. *)
Lemma occurs_between (pre a q b post : JsString) :
  occurs (a ++ q ++ b) ((pre ++ a) ++ q ++ b ++ post) = true.
Proof.
  rewrite <- (app_assoc pre). apply occurs_after.
  replace (a ++ q ++ b ++ post) with ((a ++ q ++ b) ++ post)
    by (by rewrite <- !app_assoc).
  apply occurs_here.
Qed.

(** Decimal numerals consist of digits. *)
Lemma utf16_ascii bs : Forall (λ b, b < 128) bs → utf16 bs = bs.
Proof.
  induction 1 as [|b bs Hb _ IH]; [done|].
  simpl. apply N.ltb_lt in Hb. rewrite Hb. by rewrite IH.
Qed.

Lemma pretty_N_go_digits (x : N) : ∀ s,
  Forall (λ b, 48 ≤ b ≤ 57) (bytes s) →
  Forall (λ b, 48 ≤ b ≤ 57) (bytes (pretty_N_go x s)).
Proof.
  induction (N.lt_wf_0 x) as [x _ IH]. intros s Hs.
  destruct (decide (0 < x)) as [Hx|Hx].
  - rewrite pretty_N_go_step by done. apply IH.
    + apply N.div_lt; lia.
    + unfold bytes. cbn [String.list_ascii_of_string fmap list_fmap].
      constructor; [|exact Hs].
      pose proof (N.mod_lt x 10 ltac:(lia)) as Hm.
      unfold pretty_N_char.
      destruct (x mod 10) as [|[[[|[]|]|[[]|[]|]|]|[[|[]|]|[|[]|]|]|]] eqn:E;
        try (vm_compute; split; discriminate); lia.
  - assert (x = 0) as -> by lia. by rewrite pretty_N_go_0.
Qed.

Lemma pretty_nat_digits (n : nat) : Forall (λ b, 48 ≤ b ≤ 57) (lit (pretty n)).
Proof.
  assert (H : Forall (λ b, 48 ≤ b ≤ 57) (bytes (pretty n))).
  { unfold pretty, pretty_nat, pretty, pretty_N.
    case_decide.
    - vm_compute. repeat constructor; discriminate.
    - apply pretty_N_go_digits. by constructor. }
  unfold lit. rewrite utf16_ascii; [exact H|].
  eapply Forall_impl; [exact H|]. intros b Hb. simpl in Hb. lia.
Qed.
End Strings.

(** [q] sits in the markup between the end [a] of the piece of the
    template before it and the start [b] of the piece after it. *)
Ltac between a b :=
  match goal with
  | |- occurs _ (?X ++ ?q ++ ?Y ++ ?rest) = true =>
    replace X with (take (length X - length a) X ++ a) by (vm_compute; reflexivity);
    replace Y with (b ++ drop (length b) Y) by (vm_compute; reflexivity);
    rewrite <- (app_assoc b); apply occurs_between
  end.

(** A service name is one of a list of names. *)
Ltac member :=
  cbn [fmap list_fmap];
  repeat first [apply list_elem_of_here | apply list_elem_of_further].


(** ** More on the toast *)

Module ToastMore.
Import Toast ToastFacts Session.

Lemma wf_initial : wf initial.
Proof. split; [done|constructor]. Qed.

Lemma wf_rendered p : wf p → wf (rendered p).
Proof.
  intros [Hm Ht]. split.
  - intros i [= <-]. cbn [elements rendered]. rewrite length_app. simpl. lia.
  - cbn [elements rendered timers]. rewrite length_app.
    eapply Forall_impl; [exact Ht|]. intros tm H. simpl in *. lia.
Qed.

Lemma wf_showToast msg isError p : wf p → wf (_showToast msg isError p).
Proof.
  intros [Hm Ht]. unfold _showToast. destruct (mounted p) as [toast|] eqn:E;
    [|split; [intros i Hi; congruence|done]].
  split; cbn [elements mounted timers]; rewrite length_alter.
  - exact Hm.
  - apply Forall_app. split; [done|]. apply Forall_singleton. by apply Hm.
Qed.

Lemma wf_advance d p : wf p → wf (advance d p).
Proof.
  intros [Hm Ht]. unfold advance.
  split; cbn [elements mounted timers]; rewrite fire_length; [done|].
  apply Forall_forall. intros tm [_ Hin]%list_elem_of_filter.
  rewrite Forall_forall in Ht. by apply Ht.
Qed.

(** Every page that arises is well formed. *)
Lemma wf_after hs : wf (after hs).
Proof.
  unfold after. induction hs as [|h hs IH] using rev_ind; [apply wf_initial|].
  rewrite foldl_app. simpl.
  destruct h as [[| | |]|d]; simpl; auto using wf_rendered, wf_showToast, wf_advance.
Qed.

(** X8.  Whatever has happened to the page before (renders, toasts, time
    going by, dismissals still pending), a [_render] replaces the toast
    element by a new one, which is not showing; and a toast shown on the
    new element is visible at once, stays visible for 2.5 s and is hidden
    from then on: the dismissals armed before the render hold the former
    element and cannot cut it short. *)
Theorem render_resets_toast (hs : list Happening) (msg : JsString) (isError : bool) :
  let p := rendered (after hs) in
  let shown := _showToast msg isError p in
  visible p = false
  ∧ (visible shown = true ∧ text shown = msg)
  ∧ (∀ d, (d < 2500)%nat →
       visible (advance d shown) = true ∧ text (advance d shown) = msg)
  ∧ (∀ d, (2500 ≤ d)%nat → visible (advance d shown) = false).
Proof.
  intros p shown.
  pose proof (wf_after hs) as [Hm Ht].
  set (toast := length (elements (after hs))).
  assert (Hmp : mounted p = Some toast) by done.
  assert (Hlen : (toast < length (elements p))%nat).
  { unfold p. cbn [elements rendered]. rewrite length_app. simpl. unfold toast. lia. }
  assert (Hfree : Forall (λ tm, target tm ≠ toast) (timers p)).
  { unfold p. cbn [timers rendered]. eapply Forall_impl; [exact Ht|].
    intros tm H. unfold toast. simpl in *. lia. }
  destruct (shown_lookup p toast msg isError Hmp Hlen) as (el & Hel & Hop & Htx).
  pose proof (shown_mounted p toast msg isError Hmp) as Hms.
  pose proof (shown_timers p toast msg isError Hmp) as Hts.
  pose proof (shown_now p toast msg isError Hmp) as Hns.
  fold shown in Hel, Hms, Hts, Hns.
  split; [|split; [|split]].
  - unfold visible. rewrite Hmp. unfold p. cbn [elements rendered].
    unfold toast. by rewrite lookup_app_r, Nat.sub_diag.
  - rewrite <- Htx. by apply (visible_intro shown toast el).
  - intros d Hd. rewrite <- Htx. apply (advance_visible shown toast d el); try done.
    rewrite Hts. apply Forall_app. split.
    + eapply Forall_impl; [exact Hfree|]. by intros tm Hne Heq.
    + apply Forall_singleton. intros _. cbn [due]. lia.
  - intros d Hd. apply (advance_hidden shown toast d el); try done.
    rewrite Hts. apply Exists_app. right. apply Exists_cons. left.
    cbn [due target]. split; [done|lia].
Qed.

Lemma render_resets_toast_witness :
  let earlier :=
    [Does (Render []); Does (Toast (lit "added") false); Waits 1000] in
  let shown := _showToast (lit "failed") true (rendered (after earlier)) in
  visible (advance 1500 shown) = true
  ∧ visible (advance 2499 shown) = true
  ∧ visible (advance 2500 shown) = false.
Proof.
  intros earlier shown.
  pose proof (render_resets_toast earlier (lit "failed") true) as H.
  cbv zeta in H. destruct H as (_ & _ & Hv & Hh).
  refine (conj _ (conj _ _)).
  - apply (Hv 1500%nat). lia.
  - apply (Hv 2499%nat). lia.
  - apply (Hh 2500%nat). lia.
Defined.

End ToastMore.

(** ** More on the shopping-list card *)

Module ListCardMore.
Import ListCard ListCardFacts ListEvents.

(** *** What [_escHtml] does to a text *)

Section Escaped.
#[local] Open Scope N_scope.

Lemma esc_char_table ch :
  (ch = 38 ∧ esc_char ch = [38; 97; 109; 112; 59])
  ∨ (ch = 60 ∧ esc_char ch = [38; 108; 116; 59])
  ∨ (ch = 62 ∧ esc_char ch = [38; 103; 116; 59])
  ∨ (ch = 34 ∧ esc_char ch = [38; 113; 117; 111; 116; 59])
  ∨ ((ch ∉ [38; 60; 62; 34]) ∧ esc_char ch = [ch]).
Proof.
  unfold esc_char.
  destruct (ch =? 38) eqn:E38.
  { apply N.eqb_eq in E38. left. by subst. }
  destruct (ch =? 60) eqn:E60.
  { apply N.eqb_eq in E60. right; left. by subst. }
  destruct (ch =? 62) eqn:E62.
  { apply N.eqb_eq in E62. right; right; left. by subst. }
  destruct (ch =? 34) eqn:E34.
  { apply N.eqb_eq in E34. right; right; right; left. by subst. }
  right; right; right; right. split; [|done].
  apply N.eqb_neq in E38, E60, E62, E34. set_solver.
Qed.

Lemma esc_injective s1 : ∀ s2, esc s1 = esc s2 → s1 = s2.
Proof.
  induction s1 as [|c1 s1 IH]; intros [|c2 s2] H; [done| | |].
  - rewrite esc_cons in H.
    destruct (esc_char_table c2) as [[_ E]|[[_ E]|[[_ E]|[[_ E]|[_ E]]]]];
      rewrite E in H; discriminate.
  - rewrite esc_cons in H.
    destruct (esc_char_table c1) as [[_ E]|[[_ E]|[[_ E]|[[_ E]|[_ E]]]]];
      rewrite E in H; discriminate.
  - rewrite !esc_cons in H.
    destruct (esc_char_table c1) as [[H1 E1]|[[H1 E1]|[[H1 E1]|[[H1 E1]|[H1 E1]]]]];
    destruct (esc_char_table c2) as [[H2 E2]|[[H2 E2]|[[H2 E2]|[[H2 E2]|[H2 E2]]]]];
      rewrite E1, E2 in H; simpl in H; try discriminate;
      try (injection H as H; subst; f_equal; by apply IH);
      try (injection H as Hc H; subst; set_solver).
Qed.

Lemma esc_length s : (length s ≤ length (esc s))%nat.
Proof.
  induction s as [|ch s IH]; [done|].
  rewrite esc_cons, length_app.
  destruct (esc_char_table ch) as [[_ E]|[[_ E]|[[_ E]|[[_ E]|[_ E]]]]];
    rewrite E; simpl; lia.
Qed.

Lemma esc_fixed s : esc s = s ↔ Forall (λ ch, ch ∉ [38; 60; 62; 34]) s.
Proof.
  induction s as [|ch s IH]; [done|].
  rewrite esc_cons, Forall_cons. split.
  - intros H.
    destruct (esc_char_table ch) as [[_ E]|[[_ E]|[[_ E]|[[_ E]|[Hch E]]]]];
      rewrite E in H;
      try (apply (f_equal length) in H; rewrite length_app in H; simpl in H;
           pose proof (esc_length s); lia).
    injection H as H. split; [done|]. by apply IH.
  - intros [Hch Hs].
    destruct (esc_char_table ch) as [[-> _]|[[-> _]|[[-> _]|[[-> _]|[_ E]]]]];
      [set_solver..|].
    rewrite E. simpl. f_equal. by apply IH.
Qed.

Lemma esc_plain s :
  Forall (λ ch, ch ∉ [38; 60; 62; 34]) (esc s)
  ↔ Forall (λ ch, ch ∉ [38; 60; 62; 34]) s.
Proof.
  induction s as [|ch s IH]; [done|].
  rewrite esc_cons, Forall_app, Forall_cons, IH.
  destruct (esc_char_table ch) as [[-> E]|[[-> E]|[[-> E]|[[-> E]|[Hch E]]]]];
    rewrite E; rewrite ?Forall_cons, ?Forall_nil; set_solver.
Qed.

(** X1.  [_escHtml] loses nothing: two texts with the same escaped form are
    the same text.  It leaves a text as it is exactly when the text holds
    none of [&], [<], [>] and the double quote; so escaping a text a
    second time changes it again unless it held none of them (the [&] of
    an entity is escaped once more).  The escaped text is never
    shorter. *)
Theorem escHtml_faithful (s1 s2 : JsString) :
  let plain (s : JsString) := Forall (λ ch, ch ∉ [38; 60; 62; 34]) s in
  (_escHtml (JStr s1) = _escHtml (JStr s2) → s1 = s2)
  ∧ (_escHtml (JStr s1) = s1 ↔ plain s1)
  ∧ (_escHtml (JStr (_escHtml (JStr s1))) = _escHtml (JStr s1) ↔ plain s1)
  ∧ (length s1 ≤ length (_escHtml (JStr s1)))%nat.
Proof.
  intros plain. rewrite !_escHtml_esc. cbn [to_string].
  split; [apply esc_injective|split; [apply esc_fixed|split; [|apply esc_length]]].
  rewrite esc_fixed. apply esc_plain.
Qed.

(** *** The [&] of the markup *)

Lemma amp_safe_app a b : amp_safe a → amp_safe b → amp_safe (a ++ b).
Proof.
  intros Ha Hb pre post H.
  apply app_eq_app in H as [l [[H1 H2]|[H1 H2]]].
  - destruct l as [|x l].
    + rewrite app_nil_l in H2. apply (Hb [] post). by rewrite H2.
    + injection H2 as Hx Hl. subst x post.
      destruct (Ha pre l) as (ent & Hin & Hpre); [by rewrite H1|].
      exists ent. split; [done|]. by apply prefix_app_r.
  - by apply (Hb l post).
Qed.

Lemma amp_safe_plain s : 38 ∉ s → amp_safe s.
Proof. intros Hs pre post ->. exfalso. apply Hs. set_solver. Qed.

Lemma amp_safe_esc s : amp_safe (esc s).
Proof. intros pre post. apply esc_amp. Qed.

Lemma amp_safe_concat (l : list JsString) : Forall amp_safe l → amp_safe (concat l).
Proof.
  induction 1 as [|s l Hs _ IH]; simpl.
  - by apply amp_safe_plain, not_elem_of_nil.
  - by apply amp_safe_app.
Qed.

Lemma amp_safe_if (b : bool) x y :
  amp_safe x → amp_safe y → amp_safe (if b then x else y).
Proof. by destruct b. Qed.

Lemma amp_safe_number (n : nat) : amp_safe (lit (pretty n)).
Proof.
  apply amp_safe_plain. intros Hin.
  pose proof (pretty_nat_digits n) as H. rewrite Forall_forall in H.
  specialize (H _ Hin). lia.
Qed.

Lemma no_amp_check (s : JsString) : forallb (λ x, negb (x =? 38)) s = true → 38 ∉ s.
Proof.
  intros H Hin. rewrite forallb_forall in H.
  apply list_elem_of_In in Hin. specialize (H _ Hin).
  by rewrite N.eqb_refl in H.
Qed.

Lemma Forall_imap_intro {A B} (P : B → Prop) (l : list A) : ∀ (f : nat → A → B),
  (∀ i x, P (f i x)) → Forall P (imap f l).
Proof.
  induction l as [|x l IH]; intros f Hf; [constructor|].
  rewrite imap_cons. constructor; [apply Hf|]. apply IH. intros. apply Hf.
Qed.

(** A piece of the template holds no [&] (by inspection), an escaped text
    is safe, and so is a number. *)
Ltac amp_literal := apply amp_safe_plain, no_amp_check; vm_compute; reflexivity.

Ltac amp :=
  repeat match goal with
  | |- amp_safe (_ ++ _) => apply amp_safe_app
  | |- amp_safe (if _ then _ else _) => apply amp_safe_if
  | |- amp_safe (lit (pretty _)) => apply amp_safe_number
  | |- amp_safe (_escHtml _) => rewrite _escHtml_esc; apply amp_safe_esc
  | |- amp_safe (lit _) => amp_literal
  | |- amp_safe (html _) => amp_literal
  | |- amp_safe [] => amp_literal
  | |- amp_safe style_sheet => amp_literal
  end.

Lemma item_row_amp product idx : amp_safe (item_row product idx).
Proof. unfold item_row. cbv zeta. amp. Qed.

Lemma renderBody_amp c : amp_safe (_renderBody c).
Proof.
  unfold _renderBody. cbv zeta. rewrite join_nil_concat.
  amp.
  apply amp_safe_concat, Forall_imap_intro. intros. apply item_row_amp.
Qed.

(** X2.  In the markup that [_render] assigns to the shadow root, whatever
    the state of the card, every [&] starts one of [&amp;], [&lt;],
    [&gt;], [&quot;]: the template holds no [&] of its own, and every text
    that is put into it is escaped (or is a number). *)
Theorem list_markup_ampersands (c : Card) (pre post : JsString) :
  _render c = pre ++ 38 :: post →
  ∃ ent, ent ∈ entities ∧ ent `prefix_of` post.
Proof.
  revert pre post. change (amp_safe (_render c)).
  unfold _render. cbv zeta. rewrite join_nil_concat.
  amp.
  - apply renderBody_amp.
  - apply amp_safe_concat, Forall_fmap, Forall_forall. intros r _.
    unfold compose, result_chip. amp.
Qed.

Lemma list_markup_ampersands_witness :
  let card := Examples.list_card [Examples.product "Tom & Jerry" 7] in
  ∃ pre post,
    _render card = pre ++ 38 :: post
    ∧ ∃ ent, ent ∈ entities ∧ ent `prefix_of` post.
Proof.
  intros card.
  set (found := list_find (λ ch, ch = 38) (_render card)).
  set (i := match found with Some (i, _) => i | None => 0%nat end).
  exists (take i (_render card)), (drop (S i) (_render card)).
  assert (H : _render card = take i (_render card) ++ 38 :: drop (S i) (_render card))
    by (vm_compute; reflexivity).
  split; [exact H|].
  exact (list_markup_ampersands card _ _ H).
Defined.

End Escaped.

(** *** The handlers *)

Lemma list_render_never P c : Never P (render c).
Proof. unfold render. unfold_bind. never. Qed.


Lemma list_bind_callService_eq {A} service data (f : Outcome → M Card A) c config :
  _hass c = true → _config c = Some config →
  bind (callService service data) f c
  = Susp (CallService (_domain c) (lit service) (data config)) c []
      (λ o c', emitted [] (f o c')).
Proof. intros Hh Hc. destruct c. simpl in Hh, Hc. subst. reflexivity. Qed.














Lemma addItem_start (product : Obj) c config :
  _hass c = true → _config c = Some config →
  _addItemToCart product c
  = Susp (add_request c config product) c []
      (λ o c',
         emitted []
           (match o with
            | Resolved _ =>
              emit (Toast (lit "✓ "
                           ++ to_string
                                (js_qq (js_qq (js_qq (prop "productName" product)
                                                     (prop "name" product))
                                              (prop "productId" product))
                                       (prop "id" product))
                           ++ lit " added to cart") false)
            | Rejected e =>
              emit (Toast (lit "✗ Failed: " ++ to_string (prop "message" e)) true)
            end c')).
Proof.
  intros Hh Hc. unfold _addItemToCart. cbv zeta. unfold_bind.
  by rewrite (list_bind_callService_eq _ _ _ _ config).
Qed.

Section AddOne.
Import Toast ToastFacts Session ToastMore.

(** X6.  The [+] button of a row, on a configured and attached card: one
    [add_to_cart] call for the product of that row ([productId], or [id]
    when there is none), with [quantity: 1]; when the call has settled, a
    toast and nothing else: the method assigns no field and never
    renders, whatever the outcome.  The toast reads "✓ name added to
    cart", where the name falls back from [productName] to [name],
    [productId] and [id], or "✗ Failed: message" as an error toast.  On a
    page whose shadow root has a toast element, the toast is then showing
    with that text, on the success colour or on the error colour. *)
Theorem add_one_item (c : Card) (config product : Obj) (idx : nat) :
  _hass c = true →
  _config c = Some config →
  _items c !! idx = Some product →
  let request :=
    CallService (_domain c) (lit "add_to_cart")
      {[ lit "config_entry_id" := prop "config_entry_id" config;
         lit "product_id" := js_qq (prop "productId" product) (prop "id" product);
         lit "quantity" := JNum (int 1) ]} in
  let display :=
    to_string (js_qq (js_qq (js_qq (prop "productName" product) (prop "name" product))
                            (prop "productId" product))
                     (prop "id" product)) in
  let added := lit "✓ " ++ display ++ lit " added to cart" in
  let failed (e : Obj) := lit "✗ Failed: " ++ to_string (prop "message" e) in
  deliver (add_click idx c) [] = (Pending request, c, [Call request])
  ∧ (∀ others v steps,
       deliver (add_click idx c) ((others, Resolved v) :: steps)
       = (Returned (), others c,
          [Call request; Settle (Resolved v); Toast added false]))
  ∧ (∀ others e steps,
       deliver (add_click idx c) ((others, Rejected e) :: steps)
       = (Returned (), others c,
          [Call request; Settle (Rejected e); Toast (failed e) true]))
  ∧ (∀ steps, renders (deliver (add_click idx c) steps).2 = [])
  ∧ (∀ hs toast v e,
       mounted (after hs) = Some toast →
       let ok := play (deliver (add_click idx c) (alone [Resolved v])).2 (after hs) in
       let ko := play (deliver (add_click idx c) (alone [Rejected e])).2 (after hs) in
       (visible ok = true ∧ text ok = added
        ∧ background <$> elements ok !! toast
          = Some (lit "var(--success-color, #2e7d32)"))
       ∧ (visible ko = true ∧ text ko = failed e
          ∧ background <$> elements ko !! toast
            = Some (lit "var(--error-color, #c62828)"))).
Proof.
  intros Hh Hc Hi request display added failed.
  assert (Hstart : add_click idx c = _addItemToCart product c).
  { unfold add_click. unfold_bind. rewrite bind_this_eq, Hi. apply emitted_nil. }
  rewrite Hstart, (addItem_start product c config Hh Hc).
  fold request.
  split; [reflexivity|split; [reflexivity|split; [reflexivity|split]]].
  - intros [|[others [v|e]] steps]; reflexivity.
  - intros hs toast v e Hm ok ko.
    destruct (wf_after hs) as [Hwf _]. specialize (Hwf toast Hm).
    assert (Hshow : ∀ msg isError,
              let p := _showToast msg isError (after hs) in
              visible p = true ∧ text p = msg
              ∧ background <$> elements p !! toast
                = Some (if isError then lit "var(--error-color, #c62828)"
                        else lit "var(--success-color, #2e7d32)")).
    { intros msg isError p.
      destruct (shown_lookup (after hs) toast msg isError Hm Hwf)
        as (el & Hel & Hop & Htx).
      pose proof (shown_mounted (after hs) toast msg isError Hm) as Hms.
      fold p in Hel, Hms.
      destruct (visible_intro p toast el Hms Hel Hop) as [Hv Ht].
      split; [done|split; [congruence|]].
      unfold p, _showToast. rewrite Hm. cbn [elements].
      destruct (lookup_lt_is_Some_2 _ _ Hwf) as [el0 Hel0].
      by rewrite list_lookup_alter_eq, Hel0. }
    split; [apply (Hshow added false)|apply (Hshow (failed e) true)].
Qed.

Lemma add_one_item_witness :
  let card := Examples.list_card [Examples.milk] in
  let page := after [Does (Render [])] in
  let run := deliver (add_click 0 card) (alone [Resolved JNull]) in
  run.2 = [Call (add_request card Examples.list_config Examples.milk);
           Settle (Resolved JNull);
           Toast (lit "✓ Milk added to cart") false]
  ∧ visible (play run.2 page) = true
  ∧ text (play run.2 page) = lit "✓ Milk added to cart".
Proof.
  intros card page run.
  pose proof (add_one_item card Examples.list_config Examples.milk 0
                ltac:(vm_compute; reflexivity) ltac:(vm_compute; reflexivity)
                ltac:(vm_compute; reflexivity)) as H.
  cbv zeta in H. destruct H as (_ & Hok & _ & _ & Hpage).
  destruct (Hpage [Does (Render [])] 0%nat JNull (Error []) eq_refl)
    as ((Hv & Ht & _) & _).
  refine (conj _ (conj Hv _)).
  - unfold run. cbn [alone fmap list_fmap]. rewrite Hok. vm_compute. reflexivity.
  - unfold run, page. rewrite Ht. vm_compute. reflexivity.
Defined.
End AddOne.

(** *** The requests of the handlers *)

Lemma list_callService_within services http service data c :
  lit service ∈ lit <$> services →
  Never (λ rq, negb (within services http rq)) (callService service data c).
Proof.
  intros Hin. unfold callService. unfold_bind.
  apply Never_bind; [apply Never_this|]. intros c0 s0.
  destruct (negb _); [apply Never_ret|].
  destruct (_config c0); [|apply Never_ret].
  apply Never_await. unfold within. by rewrite bool_decide_eq_true_2.
Qed.

Ltac within_list :=
  repeat first
    [ match goal with
      | |- Never _ (render _) => apply list_render_never
      | |- Never _ (callService _ _ _) => apply list_callService_within; member
      | |- Never _ (emit (Toast _ _) _) => by constructor
      | |- Never _ (throw _ _) => by constructor
      end
    | never_step ].

Lemma add_each_within products : ∀ results c,
  Never (λ rq, negb (within ["add_to_cart"] false rq)) (add_each products results c).
Proof.
  induction products as [|product rest IH]; intros results c; cbn [add_each].
  - apply Never_ret.
  - unfold_bind. apply Never_bind; [within_list|]. intros o c'. cbv zeta. apply IH.
Qed.

(** X7.  Whatever the state of the list card, whatever the host answers
    and whatever other handlers do in between, the [hass] setter and the
    Refresh button issue no request but [get_shopping_list] calls, and
    "Add all to cart" and the [+] buttons none but [add_to_cart] calls:
    refreshing never changes the cart, and adding never fetches the list
    again.  The list card never uses [fetch]. *)
Theorem list_requests (a : Action) (c : Card) steps :
  let services :=
    match a with
    | SetHass | PressRefresh => ["get_shopping_list"]
    | PressAddAll | PressAdd _ => ["add_to_cart"]
    end in
  Forall (λ rq, within services false rq = true) (calls (deliver (handle a c) steps).2).
Proof.
  destruct a; apply Never_calls; unfold handle.
  - unfold hass_setter, _fetchList. unfold_bind. within_list.
  - unfold refresh_click, _fetchList. unfold_bind. within_list.
  - unfold add_all_click, _addAllToCart. unfold_bind. within_list.
    apply add_each_within.
  - unfold add_click, _addItemToCart. unfold_bind. within_list.
Qed.

End ListCardMore.

(** ** More on the cart card *)

Module CartCardMore.
Import CartCard CartCardFacts CartEvents.


(** *** One fetch at a time *)




(** *** The [hass] setter *)





(** *** What a fetch leaves behind *)






(** *** Searching *)




(** *** The image cache *)







Section Cached.
Context (k : JsString).
Let rely := λ s s' : Card, is_Some (_imageCache s !! k) → is_Some (_imageCache s' !! k).
Let cached := λ s : Card, is_Some (_imageCache s !! k).


End Cached.



(** *** The requests of the handlers *)

Lemma fetchImages_within services productIds c :
  Never (λ rq, negb (within services true rq)) (_fetchImages productIds c).
Proof.
  unfold _fetchImages. unfold_bind.
  apply Never_bind; [apply Never_this|]. intros c0 s0. cbv zeta.
  destruct (bool_decide _); [apply Never_ret|].
  apply Never_bind.
  { apply Never_await. unfold within, products_url, catalog.
    by rewrite starts_with_app. }
  intros [resp|e] s1; [|apply Never_ret].
  destruct (negb _); [apply Never_ret|].
  apply Never_bind; [by apply Never_await|].
  intros [items|e] s2; [|apply Never_ret].
  apply Never_bind; [apply Never_this|]. intros. apply Never_assign.
Qed.

Lemma callService_within services http service data c :
  lit service ∈ lit <$> services →
  Never (λ rq, negb (within services http rq)) (callService service data c).
Proof.
  intros Hin. unfold callService. unfold_bind.
  apply Never_bind; [apply Never_this|]. intros c0 s0.
  destruct (negb _); [apply Never_ret|].
  destruct (_config c0); [|apply Never_ret].
  apply Never_await. unfold within. by rewrite bool_decide_eq_true_2.
Qed.

Ltac within_cart :=
  repeat first
    [ match goal with
      | |- Never _ (render _) => apply render_never
      | |- Never _ (_fetchImages _ _) => apply fetchImages_within
      | |- Never _ (callService _ _ _) => apply callService_within; member
      end
    | never_step ].

Lemma fetchCart_within services c :
  lit "get_cart_content" ∈ lit <$> services →
  Never (λ rq, negb (within services true rq)) (_fetchCart c).
Proof.
  intros Hin. unfold _fetchCart. unfold_bind.
  repeat first
    [ match goal with
      | |- Never _ (render _) => apply render_never
      | |- Never _ (_fetchImages _ _) => apply fetchImages_within
      | |- Never _ (callService _ _ _) => by apply callService_within
      end
    | never_step ].
Qed.

(** X15.  Whatever the state of the cart card, whatever the host answers
    and whatever other handlers do in between, a handler issues only the
    service calls of its own task: the [hass] setter and Refresh only
    [get_cart_content]; a search only [search_product]; adding only
    [add_to_cart] and [get_cart_content]; removing only
    [delete_from_cart] and [get_cart_content]; typing in the search field
    nothing at all.  So looking (refreshing, searching, typing) never
    changes the cart.  The only address that the card fetches from is the
    product catalog [https://www.rohlik.cz/api/v1/products?...]. *)
Theorem cart_requests (a : Action) (c : Card) steps :
  let '(services, http) :=
    match a with
    | SetHass | PressRefresh => (["get_cart_content"], true)
    | PressSearch _ => (["search_product"], true)
    | TypeQuery _ => ([], false)
    | PressAdd _ => (["add_to_cart"; "get_cart_content"], true)
    | PressRemove _ => (["delete_from_cart"; "get_cart_content"], true)
    end in
  Forall (λ rq, within services http rq = true) (calls (deliver (handle a c) steps).2).
Proof.
  destruct a; apply Never_calls; unfold handle.
  - unfold hass_setter. unfold_bind. within_cart. apply fetchCart_within. member.
  - unfold refresh_click. unfold_bind. within_cart. apply fetchCart_within. member.
  - unfold search_click, _searchProducts. unfold_bind. within_cart.
  - unfold search_input. unfold_bind. within_cart.
  - unfold _addToCart. unfold_bind. within_cart. apply fetchCart_within. member.
  - unfold _removeFromCart. unfold_bind. within_cart. apply fetchCart_within. member.
Qed.

(** *** Changing the cart while a fetch is under way *)

(** X19.  When the cart is changed while a fetch is in flight, it is not
    fetched again.  If [_loading] is set at the moment the [add_to_cart]
    call succeeds, [_addToCart] resets [_loaded] and the flag of the
    product and renders, but the guard of [_fetchCart] keeps it from
    issuing a [get_cart_content] call: the lines stay as they are.  In
    the same situation [_removeFromCart] returns after its
    [delete_from_cart] call without another request, without an
    assignment and without rendering.  The card then shows what the fetch
    in flight brings, which was requested before the change. *)
Theorem change_during_fetch (id : JsVal) (c : Card) (config : Obj) :
  _hass c = true →
  _config c = Some config →
  let started := set_addingToCart (<[ key id := true ]> (_addingToCart c)) c in
  let add :=
    CallService (_domain c) (lit "add_to_cart")
      {[ lit "config_entry_id" := prop "config_entry_id" config;
         lit "product_id" := id;
         lit "quantity" := JNum (int 1) ]} in
  let remove :=
    CallService (_domain c) (lit "delete_from_cart")
      {[ lit "config_entry_id" := prop "config_entry_id" config;
         lit "order_field_id" := id ]} in
  (∀ others v steps,
     _loading (others started) = true →
     let final :=
       set_addingToCart (<[ key id := false ]> (_addingToCart (others started)))
         (set_loaded false (others started)) in
     deliver (_addToCart id c) ((others, Resolved v) :: steps)
     = (Returned (), final,
        [Render (_render started); Call add; Settle (Resolved v);
         Render (_render final)])
     ∧ _products final = _products (others started)
     ∧ _loading final = true)
  ∧ (∀ others v steps,
       _loading (others c) = true →
       deliver (_removeFromCart id c) ((others, Resolved v) :: steps)
       = (Returned (), others c, [Call remove; Settle (Resolved v)])).
Proof.
  intros Hh Hc started add remove. split.
  - intros others v steps Hl final.
    rewrite (addToCart_start id c config Hh Hc). fold started add.
    cbn [deliver]. rewrite emitted_nil.
    rewrite bind_bind_assign_eq. unfold bind at 1.
    rewrite (fetchCart_idle (set_loaded false (others started))) by (by right).
    split; [reflexivity|]. split; [reflexivity|exact Hl].
  - intros others v steps Hl.
    rewrite (removeFromCart_start id c config Hh Hc). fold remove.
    cbn [deliver]. rewrite emitted_nil.
    by rewrite (fetchCart_idle (others c)) by (by right).
Qed.

Lemma change_during_fetch_witness :
  let card := Examples.cart_card in
  let refresh_pressed (c : Card) := (deliver (refresh_click c) []).1.2 in
  let run :=
    deliver (_addToCart (JNum (int 11)) card) [(refresh_pressed, Resolved JNull)] in
  run.1.1 = Returned ()
  ∧ length (calls run.2) = 1%nat
  ∧ _products run.1.2 = [Examples.cart_line].
Proof.
  intros card refresh_pressed run.
  pose proof (change_during_fetch (JNum (int 11)) card Examples.cart_config
                ltac:(vm_compute; reflexivity) ltac:(vm_compute; reflexivity)) as H.
  cbv zeta in H. destruct H as [H _].
  destruct (H refresh_pressed JNull [] ltac:(vm_compute; reflexivity))
    as (Hrun & Hprod & _).
  unfold run. rewrite Hrun. cbn [fst snd].
  refine (conj eq_refl (conj eq_refl _)).
  rewrite Hprod. vm_compute. reflexivity.
Defined.

(** *** The markup *)

Lemma cart_item_raw c p :
  occurs (html "title='" ++ to_string (prop "name" p) ++ html "'>") (cart_item c p)
  = true.
Proof.
  unfold cart_item. cbv zeta.
  do 2 apply occurs_after.
  between (html "title='") (html "'>").
Qed.

Lemma search_item_raw c p :
  occurs (html "title='" ++ to_string (prop "name" p) ++ html "'>") (search_item c p)
  = true.
Proof.
  unfold search_item. cbv zeta.
  do 2 apply occurs_after.
  between (html "title='") (html "'>").
Qed.

Lemma render_body c (n : JsString) :
  occurs n (body c) = true → occurs n (_render c) = true.
Proof.
  intros H. unfold _render. cbv zeta.
  do 13 apply occurs_after. by apply occurs_before.
Qed.

Lemma render_search c (n : JsString) :
  occurs n (searchResultsHtml c) = true → occurs n (_render c) = true.
Proof.
  intros H. unfold _render. cbv zeta.
  do 11 apply occurs_after. by apply occurs_before.
Qed.

(** X16.  The cart card has no [_escHtml]: every text goes into the markup
    as it is.  Whatever they contain, the markup that [_render] assigns to
    the shadow root holds, character for character: the title, between
    the tags of its [div]; the search query, between the quotes of the
    [value] attribute of the search field; the error (when the card is
    not loading) and the search error (when it is not searching), between
    the tags of their [div]s; and the name of every line that is shown
    and of every search result that is shown, between the quotes of its
    [title] attribute.  A text that holds a double quote, [<] or [>] thus
    becomes markup. *)
Theorem cart_markup_is_raw (c : Card) :
  let title := js_or (prop "title" (default ∅ (_config c))) (JStr (lit "Rohlik Cart")) in
  occurs (html "<div class='title'>" ++ to_string title ++ lit "</div>") (_render c)
  = true
  ∧ occurs (html "value='" ++ _searchQuery c ++ html "'>") (_render c) = true
  ∧ (_loading c = false → truthy (_error c) = true →
     occurs (html "<div class='error'>" ++ to_string (_error c) ++ lit "</div>")
            (_render c) = true)
  ∧ (_loading c = false → truthy (_error c) = false →
     ∀ p, p ∈ _products c →
     occurs (html "title='" ++ to_string (prop "name" p) ++ html "'>") (_render c)
     = true)
  ∧ (_searching c = false → truthy (_searchError c) = true →
     occurs (html "<div class='search-status search-error'>"
             ++ to_string (_searchError c) ++ lit "</div>") (_render c) = true)
  ∧ (_searching c = false → truthy (_searchError c) = false →
     ∀ p, p ∈ _searchResults c →
     occurs (html "title='" ++ to_string (prop "name" p) ++ html "'>") (_render c)
     = true).
Proof.
  intros title.
  split; [|split; [|split; [|split; [|split]]]].
  - unfold _render. cbv zeta. fold title.
    do 2 apply occurs_after.
    between (html "<div class='title'>") (lit "</div>").
  - unfold _render. cbv zeta.
    do 6 apply occurs_after.
    between (html "value='") (html "'>").
  - intros Hl He. apply render_body. unfold body. rewrite Hl, He.
    apply occurs_refl.
  - intros Hl He p Hp. apply render_body. unfold body. rewrite Hl, He.
    rewrite bool_decide_eq_false_2.
    2:{ intros Hlen. apply length_zero_iff_nil in Hlen. rewrite Hlen in Hp.
        by apply not_elem_of_nil in Hp. }
    cbv zeta. apply occurs_after, occurs_before.
    rewrite ListCardFacts.join_nil_concat.
    apply (occurs_concat _ (cart_item c p)); [|apply cart_item_raw].
    by apply list_elem_of_fmap_2.
  - intros Hl He. apply render_search. unfold searchResultsHtml. rewrite Hl, He.
    apply occurs_refl.
  - intros Hl He p Hp. apply render_search. unfold searchResultsHtml. rewrite Hl, He.
    rewrite bool_decide_eq_true_2.
    2:{ destruct (_searchResults c); [by apply not_elem_of_nil in Hp|simpl; lia]. }
    apply occurs_after, occurs_before.
    rewrite ListCardFacts.join_nil_concat.
    apply (occurs_concat _ (search_item c p)); [|apply search_item_raw].
    by apply list_elem_of_fmap_2.
Qed.

Lemma cart_markup_is_raw_witness :
  let hostile := html "'><script>alert(1)</script>" in
  let card := set_searchQuery hostile Examples.cart_card in
  occurs (html "value=''><script>alert(1)</script>'>") (_render card) = true
  ∧ occurs (html "title='Milk'>") (_render card) = true.
Proof.
  intros hostile card.
  pose proof (cart_markup_is_raw card) as H. cbv zeta in H.
  destruct H as (_ & Hq & _ & Hp & _).
  split.
  - exact Hq.
  - apply (Hp eq_refl eq_refl Examples.cart_line).
    replace (_products card) with [Examples.cart_line] by (vm_compute; reflexivity).
    apply list_elem_of_here.
Defined.

End CartCardMore.

(** ** More on both cards *)

(** X17.  The size hint of the list card in whole numbers: for [n] items
    it is [(n + 1) div 2 + 2].  It is never below 2, so that the lower
    bound 1 of [Math.max] never applies; it is 2 exactly for a card
    without items; and a card with more items never has the smaller
    hint. *)
Theorem list_card_size_bounds (c c' : ListCard.Card) :
  let n := Z.of_nat (length (ListCard._items c)) in
  (ListCard.getCardSize c = (n + 1) / 2 + 2)%Z
  ∧ (2 ≤ ListCard.getCardSize c)%Z
  ∧ (ListCard.getCardSize c = 2%Z ↔ ListCard._items c = [])
  ∧ ((length (ListCard._items c) ≤ length (ListCard._items c'))%nat →
     (ListCard.getCardSize c ≤ ListCard.getCardSize c')%Z).
Proof.
  intros n.
  assert (Hsize : ∀ c0, (ListCard.getCardSize c0
            = (Z.of_nat (length (ListCard._items c0)) + 1) / 2 + 2)%Z).
  { intros c0. unfold ListCard.getCardSize.
    pose proof (ceil_half (Z.of_nat (length (ListCard._items c0)))) as H.
    cbv zeta in H.
    set (k := Qceiling _) in *.
    assert (k = (Z.of_nat (length (ListCard._items c0)) + 1) / 2)%Z as ->.
    { apply Z.div_unique
        with (r := (Z.of_nat (length (ListCard._items c0)) + 1 - 2 * k)%Z); lia. }
    pose proof (Z.div_pos (Z.of_nat (length (ListCard._items c0)) + 1) 2).
    lia. }
  split; [apply Hsize|]. rewrite !Hsize. fold n.
  assert (0 ≤ n)%Z by lia.
  split; [|split].
  - pose proof (Z.div_pos (n + 1) 2). lia.
  - split.
    + intros H1. assert ((n + 1) / 2 = 0)%Z as H0 by lia.
      apply Z.div_small_iff in H0; [|lia].
      apply length_zero_iff_nil. lia.
    + intros Hnil. unfold n. rewrite Hnil. done.
  - intros Hle. apply Z.add_le_mono_r, Z.div_le_mono; lia.
Qed.

(** X18.  The configuration that [getStubConfig] offers the card picker is
    one that [setConfig] of the same card refuses: its [config_entry_id]
    is empty, so both cards throw "config_entry_id is required", whatever
    their state, and render nothing.  With a connection filled in, the
    stub of the list card is still refused, for its empty
    [shopping_list_id]; the stub of the cart card is accepted. *)
Theorem stub_config_is_refused (lc : ListCard.Card) (cc : CartCard.Card)
    (connection : JsVal) :
  let list_stub := Lovelace.getStubConfig Lovelace.RohlikczShoppingListCard in
  let cart_stub := Lovelace.getStubConfig Lovelace.RohlikczCartCard in
  let filled (stub : Obj) := <[ lit "config_entry_id" := connection ]> stub in
  ListCard.setConfig list_stub lc
  = Threw (Error (lit "config_entry_id is required")) lc []
  ∧ CartCard.setConfig cart_stub cc
    = Threw (Error (lit "config_entry_id is required")) cc []
  ∧ (truthy connection = true →
     ListCard.setConfig (filled list_stub) lc
     = Threw (Error (lit "shopping_list_id is required")) lc []
     ∧ ∃ cc', CartCard.setConfig (filled cart_stub) cc
              = Done () cc' [Render (CartCard._render cc')]
              ∧ CartCard._config cc' = Some (filled cart_stub)).
Proof.
  intros list_stub cart_stub filled.
  split; [|split].
  - unfold ListCard.setConfig.
    by assert (truthy (prop "config_entry_id" list_stub) = false) as ->
      by (vm_compute; reflexivity).
  - unfold CartCard.setConfig.
    by assert (truthy (prop "config_entry_id" cart_stub) = false) as ->
      by (vm_compute; reflexivity).
  - intros Hc.
    assert (Hk : ∀ stub, prop "config_entry_id" (filled stub) = connection).
    { intros stub. unfold prop, filled. by rewrite lookup_insert_eq. }
    split.
    + unfold ListCard.setConfig. rewrite Hk, Hc. cbn [negb].
      assert (prop "shopping_list_id" (filled list_stub) = JStr []) as ->.
      { unfold prop, filled. rewrite lookup_insert_ne by (by vm_compute).
        by vm_compute. }
      done.
    + unfold CartCard.setConfig. rewrite Hk, Hc. cbn [negb].
      eexists. split; reflexivity.
Qed.

Lemma stub_config_is_refused_witness :
  ListCard.setConfig
    (<[ lit "config_entry_id" := JStr (lit "x") ]> ListCard.getStubConfig)
    ListCard.constructor
  = Threw (Error (lit "shopping_list_id is required")) ListCard.constructor [].
Proof.
  pose proof (stub_config_is_refused ListCard.constructor CartCard.constructor
                (JStr (lit "x"))) as H.
  cbv zeta in H. destruct H as (_ & _ & H).
  by destruct (H eq_refl) as [H' _].
Defined.

(** X20.  Configuring a card again does not fetch again.  On a card that
    has fetched before ([_loaded] is set), [setConfig] with a valid
    configuration followed by the next assignment of [hass] stores the
    new configuration and renders once, and that is all: no request goes
    out, and the card keeps showing the items (the lines) that it fetched
    under the former configuration, until Refresh is pressed. *)
Theorem reconfigure_does_not_refetch (config : Obj)
    (lc : ListCard.Card) (cc : CartCard.Card) :
  let domain := js_or (prop "domain" config) (JStr (lit "rohlikcz2")) in
  let lc' := ListCard.set_hass true
               (ListCard.set_domain domain (ListCard.set_config (Some config) lc)) in
  let cc' := CartCard.set_hass true
               (CartCard.set_domain domain (CartCard.set_config (Some config) cc)) in
  truthy (prop "config_entry_id" config) = true →
  (truthy (prop "shopping_list_id" config) = true →
   ListCard._loaded lc = true →
   (∀ steps,
      deliver (bind (ListCard.setConfig config) (λ _, ListCard.hass_setter) lc) steps
      = (Returned (), lc',
         [Render (ListCard._render
                    (ListCard.set_domain domain
                       (ListCard.set_config (Some config) lc)))]))
   ∧ ListCard._items lc' = ListCard._items lc
   ∧ ListCard._listName lc' = ListCard._listName lc)
  ∧ (CartCard._loaded cc = true →
     (∀ steps,
        deliver (bind (CartCard.setConfig config) (λ _, CartCard.hass_setter) cc) steps
        = (Returned (), cc',
           [Render (CartCard._render
                      (CartCard.set_domain domain
                         (CartCard.set_config (Some config) cc)))]))
     ∧ CartCard._products cc' = CartCard._products cc).
Proof.
  intros domain lc' cc' Hentry. split.
  - intros Hlist Hl. split; [|done]. intros steps.
    unfold ListCard.setConfig. rewrite Hentry, Hlist. cbn [negb]. unfold_bind.
    rewrite !bind_bind_assign_eq.
    unfold bind at 1, ListCard.render. unfold_bind. rewrite bind_this_eq.
    cbn [emitted emit bindR app].
    unfold ListCard.hass_setter. unfold_bind.
    rewrite bind_assign_eq, bind_this_eq.
    cbn [ListCard._loaded ListCard.set_hass ListCard.set_domain ListCard.set_config].
    rewrite Hl. reflexivity.
  - intros Hl. split; [|done]. intros steps.
    unfold CartCard.setConfig. rewrite Hentry. cbn [negb]. unfold_bind.
    rewrite !bind_bind_assign_eq.
    unfold bind at 1, CartCard.render. unfold_bind. rewrite bind_this_eq.
    cbn [emitted emit bindR app].
    unfold CartCard.hass_setter. unfold_bind.
    rewrite bind_assign_eq, bind_this_eq.
    cbn [CartCard._loaded CartCard.set_hass CartCard.set_domain CartCard.set_config].
    rewrite Hl. reflexivity.
Qed.

Lemma reconfigure_does_not_refetch_witness :
  let other_list : Obj :=
    {[ lit "config_entry_id" := JStr (lit "x");
       lit "shopping_list_id" := JStr (lit "77") ]} in
  let card := Examples.list_card [Examples.milk] in
  let run :=
    deliver (bind (ListCard.setConfig other_list) (λ _, ListCard.hass_setter) card) [] in
  run.1.1 = Returned ()
  ∧ calls run.2 = []
  ∧ ListCard._items run.1.2 = [Examples.milk]
  ∧ ListCard._config run.1.2 = Some other_list.
Proof.
  intros other_list card run.
  pose proof (reconfigure_does_not_refetch other_list card CartCard.constructor
                ltac:(vm_compute; reflexivity)) as [H _].
  destruct (H ltac:(vm_compute; reflexivity) ltac:(vm_compute; reflexivity))
    as (Hrun & Hitems & _).
  unfold run. rewrite Hrun. cbn [fst snd].
  refine (conj eq_refl (conj eq_refl (conj _ eq_refl))).
  rewrite Hitems. vm_compute. reflexivity.
Defined.
